(** * Package [null]: a nullable string (string.go)

    A shallow embedding of the Go package [null] (file string.go) and of the
    parts of the Go standard library it calls ([database/sql]'s [NullString]
    and [encoding/json]'s [Unmarshal]), followed by the properties of the
    package.

    Conventions.
    - A Go [string] is a Rocq [string] (a sequence of 8-bit characters); a Go
      [[]byte] is a [list byte].  The conversions [[]byte(s)] and [string(b)]
      are [list_byte_of_string] and [string_of_list_byte].
    - A method with a pointer receiver that mutates its receiver takes the
      receiver's value and returns the new value next to its result.
    - A Go [error] result is an [option]: [None] is [nil].
    - A [*string] is an [option string]: [None] is the nil pointer and
      [Some x] a pointer to a cell holding [x].

    Contents.
    - Module [sql]: the struct [NullString].
    - Module [json]: the scanner of scanner.go as a step function on bytes,
      the decoder driven by its opcodes, string and number literals, and
      [Unmarshal] into an empty interface and into a [NullString].
    - Module [null]: string.go.
    - The decoder's invariants, and the proof that a valid input always
      decodes to a document whose strings are all unquoted.
    - The properties of the package. *)

From Stdlib Require Import List Bool NArith ZArith Lia.
From Stdlib.Strings Require Import Byte Ascii String.
Import ListNotations.

Set Warnings "-register-all".

Local Open Scope string_scope.

(** ** Go conversions between [string] and [[]byte] *)

Definition bytes_of_string (s : string) : list byte := list_byte_of_string s.
Definition string_of_bytes (b : list byte) : string := string_of_list_byte b.

(** [s != ""] *)
Definition nonempty (s : string) : bool := negb (s =? "").
Arguments nonempty : simpl never.

(** ** database/sql *)

Module sql.

(** [type NullString struct { String string; Valid bool }] *)
Record NullString : Type := mkNullString {
  String : string;
  Valid : bool
}.

End sql.

(** ** encoding/json

    A model of [json.Unmarshal] for the two targets string.go decodes into: an
    empty [interface{}] and a [sql.NullString].  It follows the library:
    [checkValid] runs the byte-at-a-time scanner of scanner.go over the whole
    input first, and only a valid input is decoded. *)

Module json.

Local Open Scope N_scope.

Definition code (c : byte) : N := Byte.to_N c.

Definition byte_of (n : N) : byte :=
  match Byte.of_N n with Some b => b | None => x00 end.

Definition between (lo hi n : N) : bool := (lo <=? n) && (n <=? hi).

Definition isChar (ch : string) (c : byte) : bool :=
  match bytes_of_string ch with
  | [b] => Byte.eqb b c
  | _ => false
  end.

Definition isSpace (c : byte) : bool :=
  let n := code c in (n =? 32) || (n =? 9) || (n =? 13) || (n =? 10).

Definition isDigit (c : byte) : bool := between 48 57 (code c).
Definition isDigit19 (c : byte) : bool := between 49 57 (code c).
Definition isHex (c : byte) : bool :=
  let n := code c in between 48 57 n || between 97 102 n || between 65 70 n.

Definition dquote : byte := x22.
Definition backslash : byte := x5c.

(** *** scanner.go *)

(** The values of [scanner.step]. *)
Inductive stepState : Type :=
| stateBeginValueOrEmpty | stateBeginValue
| stateBeginStringOrEmpty | stateBeginString
| stateEndValue | stateEndTop
| stateInString | stateInStringEsc
| stateInStringEscU | stateInStringEscU1 | stateInStringEscU12
| stateInStringEscU123
| stateNeg | state1 | state0 | stateDot | stateDot0
| stateE | stateESign | stateE0
| stateT | stateTr | stateTru
| stateF | stateFa | stateFal | stateFals
| stateN | stateNu | stateNul
| stateError.

(** What is being parsed: the entries of [scanner.parseState]. *)
Inductive parseKind : Type :=
| parseObjectKey | parseObjectValue | parseArrayValue.

(** The scan opcodes a step returns. *)
Inductive opcode : Type :=
| scanContinue | scanBeginLiteral
| scanBeginObject | scanObjectKey | scanObjectValue | scanEndObject
| scanBeginArray | scanArrayValue | scanEndArray
| scanSkipSpace | scanEnd | scanError.

Record scanner : Type := mkScanner {
  step : stepState;
  endTop : bool;
  parseState : list parseKind;   (* innermost first *)
  err : bool                     (* [s.err != nil] *)
}.

Definition maxNestingDepth : N := 10000.

(** [scan.reset()] *)
Definition reset : scanner := mkScanner stateBeginValue false [] false.

Definition goto (s : scanner) (st : stepState) : scanner :=
  mkScanner st (endTop s) (parseState s) (err s).

(** [s.error(c, context)] *)
Definition scan_error (s : scanner) : scanner * opcode :=
  (mkScanner stateError (endTop s) (parseState s) true, scanError).

(** [s.pushParseState(c, newParseState, successState)], after [s.step] has
    been set to [st]. *)
Definition pushParseState (s : scanner) (st : stepState) (k : parseKind)
    (success : opcode) : scanner * opcode :=
  let s' := mkScanner st (endTop s) (k :: parseState s) (err s) in
  if N.of_nat (List.length (parseState s')) <=? maxNestingDepth
  then (s', success) else scan_error s'.

(** [s.popParseState()] *)
Definition popParseState (s : scanner) : scanner :=
  match parseState s with
  | [] => s
  | _ :: [] => mkScanner stateEndTop true [] (err s)
  | _ :: rest => mkScanner stateEndValue (endTop s) rest (err s)
  end.

Definition setTop (s : scanner) (k : parseKind) : scanner :=
  match parseState s with
  | [] => s
  | _ :: rest => mkScanner (step s) (endTop s) (k :: rest) (err s)
  end.

Definition do_stateEndTop (s : scanner) (c : byte) : scanner * opcode :=
  if isSpace c then (s, scanEnd) else (fst (scan_error s), scanEnd).

Definition do_stateEndValue (s : scanner) (c : byte) : scanner * opcode :=
  match parseState s with
  | [] =>
      do_stateEndTop (mkScanner stateEndTop true [] (err s)) c
  | ps :: _ =>
      if isSpace c then (goto s stateEndValue, scanSkipSpace)
      else match ps with
      | parseObjectKey =>
          if isChar ":" c
          then (goto (setTop s parseObjectValue) stateBeginValue,
                scanObjectKey)
          else scan_error s
      | parseObjectValue =>
          if isChar "," c
          then (goto (setTop s parseObjectKey) stateBeginString,
                scanObjectValue)
          else if isChar "}" c then (popParseState s, scanEndObject)
          else scan_error s
      | parseArrayValue =>
          if isChar "," c then (goto s stateBeginValue, scanArrayValue)
          else if isChar "]" c then (popParseState s, scanEndArray)
          else scan_error s
      end
  end.

Definition do_stateBeginValue (s : scanner) (c : byte) : scanner * opcode :=
  if isSpace c then (s, scanSkipSpace)
  else if isChar "{" c
  then pushParseState s stateBeginStringOrEmpty parseObjectKey
         scanBeginObject
  else if isChar "[" c
  then pushParseState s stateBeginValueOrEmpty parseArrayValue
         scanBeginArray
  else if Byte.eqb c dquote then (goto s stateInString, scanBeginLiteral)
  else if isChar "-" c then (goto s stateNeg, scanBeginLiteral)
  else if isChar "0" c then (goto s state0, scanBeginLiteral)
  else if isChar "t" c then (goto s stateT, scanBeginLiteral)
  else if isChar "f" c then (goto s stateF, scanBeginLiteral)
  else if isChar "n" c then (goto s stateN, scanBeginLiteral)
  else if isDigit19 c then (goto s state1, scanBeginLiteral)
  else scan_error s.

Definition do_stateBeginString (s : scanner) (c : byte) : scanner * opcode :=
  if isSpace c then (s, scanSkipSpace)
  else if Byte.eqb c dquote then (goto s stateInString, scanBeginLiteral)
  else scan_error s.

Definition do_state0 (s : scanner) (c : byte) : scanner * opcode :=
  if isChar "." c then (goto s stateDot, scanContinue)
  else if isChar "e" c || isChar "E" c then (goto s stateE, scanContinue)
  else do_stateEndValue s c.

Definition do_stateESign (s : scanner) (c : byte) : scanner * opcode :=
  if isDigit c then (goto s stateE0, scanContinue) else scan_error s.

(** One literal letter: [c] must be [ch], and the scanner moves to [st]. *)
Definition expect (ch : string) (st : stepState) (s : scanner) (c : byte)
    : scanner * opcode :=
  if isChar ch c then (goto s st, scanContinue) else scan_error s.

Definition hexTo (st : stepState) (s : scanner) (c : byte)
    : scanner * opcode :=
  if isHex c then (goto s st, scanContinue) else scan_error s.

(** [s.step(s, c)]: dispatch on the current step function. *)
Definition scan_step (s : scanner) (c : byte) : scanner * opcode :=
  match step s with
  | stateBeginValueOrEmpty =>
      if isSpace c then (s, scanSkipSpace)
      else if isChar "]" c then do_stateEndValue s c
      else do_stateBeginValue s c
  | stateBeginValue => do_stateBeginValue s c
  | stateBeginStringOrEmpty =>
      if isSpace c then (s, scanSkipSpace)
      else if isChar "}" c
      then do_stateEndValue (setTop s parseObjectValue) c
      else do_stateBeginString s c
  | stateBeginString => do_stateBeginString s c
  | stateEndValue => do_stateEndValue s c
  | stateEndTop => do_stateEndTop s c
  | stateInString =>
      if Byte.eqb c dquote then (goto s stateEndValue, scanContinue)
      else if Byte.eqb c backslash
      then (goto s stateInStringEsc, scanContinue)
      else if code c <? 32 then scan_error s
      else (s, scanContinue)
  | stateInStringEsc =>
      if isChar "b" c || isChar "f" c || isChar "n" c || isChar "r" c
         || isChar "t" c || Byte.eqb c backslash || isChar "/" c
         || Byte.eqb c dquote
      then (goto s stateInString, scanContinue)
      else if isChar "u" c then (goto s stateInStringEscU, scanContinue)
      else scan_error s
  | stateInStringEscU => hexTo stateInStringEscU1 s c
  | stateInStringEscU1 => hexTo stateInStringEscU12 s c
  | stateInStringEscU12 => hexTo stateInStringEscU123 s c
  | stateInStringEscU123 => hexTo stateInString s c
  | stateNeg =>
      if isChar "0" c then (goto s state0, scanContinue)
      else if isDigit19 c then (goto s state1, scanContinue)
      else scan_error s
  | state1 =>
      if isDigit c then (goto s state1, scanContinue) else do_state0 s c
  | state0 => do_state0 s c
  | stateDot =>
      if isDigit c then (goto s stateDot0, scanContinue) else scan_error s
  | stateDot0 =>
      if isDigit c then (s, scanContinue)
      else if isChar "e" c || isChar "E" c then (goto s stateE, scanContinue)
      else do_stateEndValue s c
  | stateE =>
      if isChar "+" c || isChar "-" c then (goto s stateESign, scanContinue)
      else do_stateESign s c
  | stateESign => do_stateESign s c
  | stateE0 =>
      if isDigit c then (s, scanContinue) else do_stateEndValue s c
  | stateT => expect "r" stateTr s c
  | stateTr => expect "u" stateTru s c
  | stateTru => expect "e" stateEndValue s c
  | stateF => expect "a" stateFa s c
  | stateFa => expect "l" stateFal s c
  | stateFal => expect "s" stateFals s c
  | stateFals => expect "e" stateEndValue s c
  | stateN => expect "u" stateNu s c
  | stateNu => expect "l" stateNul s c
  | stateNul => expect "l" stateEndValue s c
  | stateError => (s, scanError)
  end.

(** [s.eof()] *)
Definition eof (s : scanner) : opcode :=
  if err s then scanError
  else if endTop s then scanEnd
  else
    let s' := fst (scan_step s x20) in
    if endTop s' then scanEnd else scanError.

Definition is_scanError (op : opcode) : bool :=
  match op with scanError => true | _ => false end.

(** The loop of [checkValid]: [true] when the scan reaches the end of the
    input without an error. *)
Fixpoint checkValid_from (s : scanner) (data : list byte) : bool :=
  match data with
  | [] => negb (is_scanError (eof s))
  | c :: rest =>
      let '(s', op) := scan_step s c in
      if is_scanError op then false else checkValid_from s' rest
  end.

(** [checkValid(data, &d.scan) == nil] *)
Definition checkValid (data : list byte) : bool :=
  checkValid_from reset data.

(** *** Unicode helpers (unicode/utf8, unicode/utf16) *)

Definition RuneError : N := 0xFFFD.
Definition MaxRune : N := 0x10FFFF.
Definition surr1 : N := 0xd800.
Definition surr2 : N := 0xdc00.
Definition surr3 : N := 0xe000.
Definition surrSelf : N := 0x10000.

(** [utf16.IsSurrogate(r)] *)
Definition IsSurrogate (r : N) : bool := (surr1 <=? r) && (r <? surr3).

(** [utf16.DecodeRune(r1, r2)]; [r2 = None] stands for Go's -1. *)
Definition utf16_DecodeRune (r1 : N) (r2 : option N) : N :=
  match r2 with
  | Some r2 =>
      if (surr1 <=? r1) && (r1 <? surr2) && (surr2 <=? r2) && (r2 <? surr3)
      then N.lor (N.shiftl (r1 - surr1) 10) (r2 - surr2) + surrSelf
      else RuneError
  | None => RuneError
  end.

Definition tx (n : N) : byte := byte_of (N.lor 0x80 (N.land n 0x3F)).

Definition encode3 (r : N) : list byte :=
  [byte_of (N.lor 0xE0 (N.shiftr r 12)); tx (N.shiftr r 6); tx r].

(** [utf8.EncodeRune(p, r)]: the bytes written. *)
Definition EncodeRune (r : N) : list byte :=
  if r <=? 0x7F then [byte_of r]
  else if r <=? 0x7FF then [byte_of (N.lor 0xC0 (N.shiftr r 6)); tx r]
  else if (MaxRune <? r) || IsSurrogate r then encode3 RuneError
  else if r <=? 0xFFFF then encode3 r
  else [byte_of (N.lor 0xF0 (N.shiftr r 18)); tx (N.shiftr r 12);
        tx (N.shiftr r 6); tx r].

Definition isCont (c : byte) : bool := between 0x80 0xBF (code c).

(** The size [utf8.DecodeRune(s)] returns for a well-formed encoding at the
    head of [s]; [None] when it returns [(RuneError, 1)]. *)
Definition utf8_size (s : list byte) : option nat :=
  match s with
  | [] => None
  | c0 :: t =>
      let n0 := code c0 in
      if n0 <? 0x80 then Some 1%nat
      else if between 0xC2 0xDF n0 then
        match t with
        | c1 :: _ => if isCont c1 then Some 2%nat else None
        | _ => None
        end
      else if between 0xE0 0xEF n0 then
        match t with
        | c1 :: c2 :: _ =>
            let lo := if n0 =? 0xE0 then 0xA0 else 0x80 in
            let hi := if n0 =? 0xED then 0x9F else 0xBF in
            if between lo hi (code c1) && isCont c2 then Some 3%nat
            else None
        | _ => None
        end
      else if between 0xF0 0xF4 n0 then
        match t with
        | c1 :: c2 :: c3 :: _ =>
            let lo := if n0 =? 0xF0 then 0x90 else 0x80 in
            let hi := if n0 =? 0xF4 then 0x8F else 0xBF in
            if between lo hi (code c1) && isCont c2 && isCont c3
            then Some 4%nat else None
        | _ => None
        end
      else None
  end.

(** *** decode.go: string literals *)

Definition hexval (c : byte) : option N :=
  let n := code c in
  if between 48 57 n then Some (n - 48)
  else if between 97 102 n then Some (n - 97 + 10)
  else if between 65 70 n then Some (n - 65 + 10)
  else None.

(** [getu4(s)]: the rune of a leading [\uXXXX]; [None] is Go's -1. *)
Definition getu4 (s : list byte) : option N :=
  match s with
  | b0 :: b1 :: h1 :: h2 :: h3 :: h4 :: _ =>
      if Byte.eqb b0 backslash && isChar "u" b1 then
        match hexval h1, hexval h2, hexval h3, hexval h4 with
        | Some a, Some b, Some c, Some d =>
            Some (((a * 16 + b) * 16 + c) * 16 + d)
        | _, _, _, _ => None
        end
      else None
  | _ => None
  end.

(** One turn of the loop of [unquoteBytes] at the remaining input [s]: the
    bytes written and the number of bytes read; [None] is [ok == false]. *)
Definition unquote_at (s : list byte) : option (list byte * nat) :=
  match s with
  | [] => None
  | c :: rest =>
      if Byte.eqb c backslash then
        match rest with
        | [] => None
        | e :: _ =>
            if Byte.eqb e dquote || Byte.eqb e backslash || isChar "/" e
               || isChar "'" e
            then Some ([e], 2%nat)
            else if isChar "b" e then Some ([x08], 2%nat)
            else if isChar "f" e then Some ([x0c], 2%nat)
            else if isChar "n" e then Some ([x0a], 2%nat)
            else if isChar "r" e then Some ([x0d], 2%nat)
            else if isChar "t" e then Some ([x09], 2%nat)
            else if isChar "u" e then
              match getu4 s with
              | None => None
              | Some rr =>
                  if IsSurrogate rr then
                    let dec := utf16_DecodeRune rr (getu4 (skipn 6 s)) in
                    if negb (dec =? RuneError)
                    then Some (EncodeRune dec, 12%nat)
                    else Some (EncodeRune RuneError, 6%nat)
                  else Some (EncodeRune rr, 6%nat)
              end
            else None
        end
      else if Byte.eqb c dquote || (code c <? 32) then None
      else if code c <? 0x80 then Some ([c], 1%nat)
      else
        match utf8_size s with
        | Some n => Some (firstn n s, n)
        | None => Some (EncodeRune RuneError, 1%nat)
        end
  end.

(** The loop of [unquoteBytes]; [skip] counts the bytes the previous turn
    read beyond the first. *)
Fixpoint unquote_loop (skip : nat) (s : list byte) : option (list byte) :=
  match s with
  | [] => Some []
  | _ :: rest =>
      match skip with
      | S k => unquote_loop k rest
      | O =>
          match unquote_at s with
          | None => None
          | Some (out, n) =>
              option_map (app out) (unquote_loop (Nat.pred n) rest)
          end
      end
  end.

(** [unquoteBytes(s)]: a quoted JSON string literal to the bytes of the Go
    string, malformed UTF-8 coerced to U+FFFD. *)
Definition unquoteBytes (s : list byte) : option (list byte) :=
  match s with
  | q :: body =>
      if Byte.eqb q dquote && Nat.leb 2 (List.length s)
         && Byte.eqb (last s x00) dquote
      then unquote_loop 0 (removelast body)
      else None
  | [] => None
  end.

(** *** decode.go: numbers

    [d.convertNumber(s)] is [strconv.ParseFloat(s, 64)], which fails with
    a range error exactly when the correctly rounded (nearest, ties to
    even) binary64 value is infinite: when the magnitude of the literal is
    at least [2^1024 - 2^970]. *)

Record numacc : Type := mkNumacc {
  mant : Z;          (* the digits before the exponent, as an integer *)
  fracDigits : Z;    (* how many of them follow the point *)
  inFrac : bool;
  inExp : bool;
  expNeg : bool;
  expo : Z
}.

Definition num_step (a : numacc) (c : byte) : numacc :=
  if isDigit c then
    let d := Z.of_N (code c - 48) in
    if inExp a
    then mkNumacc (mant a) (fracDigits a) (inFrac a) true (expNeg a)
           (expo a * 10 + d)%Z
    else mkNumacc (mant a * 10 + d)%Z
           (if inFrac a then fracDigits a + 1 else fracDigits a)%Z
           (inFrac a) false (expNeg a) (expo a)
  else if isChar "." c
  then mkNumacc (mant a) (fracDigits a) true (inExp a) (expNeg a) (expo a)
  else if isChar "e" c || isChar "E" c
  then mkNumacc (mant a) (fracDigits a) (inFrac a) true (expNeg a) (expo a)
  else if isChar "-" c && inExp a
  then mkNumacc (mant a) (fracDigits a) (inFrac a) true true (expo a)
  else a.

Definition float64_overflows (lit : list byte) : bool :=
  let a := fold_left num_step lit (mkNumacc 0 0 false false false 0) in
  let k := ((if expNeg a then - expo a else expo a) - fracDigits a)%Z in
  let limit := (2 ^ 1024 - 2 ^ 970)%Z in
  if (0 <=? k)%Z then (limit <=? mant a * 10 ^ k)%Z
  else (limit * 10 ^ (- k) <=? mant a)%Z.

(** *** decode.go: the decoded document

    The decoder reads the input through the scanner: the opcodes delimit
    the literals and the containers.  A literal is kept as its bytes. *)

Inductive value : Type :=
| JNull
| JBool (b : bool)
| JNumber (lit : list byte)
| JString (lit : list byte)                    (* quotes included *)
| JArray (elems : list value)
| JObject (members : list (list byte * value)). (* keys: quoted literals *)

(** The switch of [literalStore] on the first byte of the literal. *)
Definition literal_value (item : list byte) : value :=
  match item with
  | [] => JNull
  | c :: _ =>
      if isChar "n" c then JNull
      else if isChar "t" c then JBool true
      else if isChar "f" c then JBool false
      else if Byte.eqb c dquote then JString item
      else JNumber item
  end.

(** A container being read. *)
Inductive frame : Type :=
| FArray (elems : list value)
| FObject (members : list (list byte * value)) (key : option (list byte)).

Record decodeState : Type := mkDecodeState {
  scan : scanner;
  lit : option (list byte);   (* the literal being read, last byte first *)
  cur : option value;         (* the value just completed *)
  stack : list frame          (* innermost first *)
}.

Definition key_of (v : value) : list byte :=
  match v with JString l => l | _ => [] end.

(** The effect of an opcode other than [scanContinue] on the containers. *)
Definition build (op : opcode) (c : byte) (cur : option value)
    (stack : list frame) : option (list byte) * option value * list frame :=
  match op, stack, cur with
  | scanBeginLiteral, _, _ => (Some [c], None, stack)
  | scanBeginObject, _, _ => (None, None, FObject [] None :: stack)
  | scanBeginArray, _, _ => (None, None, FArray [] :: stack)
  | scanObjectKey, FObject ms None :: st, Some k =>
      (None, None, FObject ms (Some (key_of k)) :: st)
  | scanObjectValue, FObject ms (Some k) :: st, Some v =>
      (None, None, FObject (ms ++ [(k, v)]) None :: st)
  | scanEndObject, FObject ms (Some k) :: st, Some v =>
      (None, Some (JObject (ms ++ [(k, v)])), st)
  | scanEndObject, FObject ms _ :: st, _ =>
      (None, Some (JObject ms), st)
  | scanArrayValue, FArray es :: st, Some v =>
      (None, None, FArray (es ++ [v]) :: st)
  | scanEndArray, FArray es :: st, Some v =>
      (None, Some (JArray (es ++ [v])), st)
  | scanEndArray, FArray es :: st, None =>
      (None, Some (JArray es), st)
  | _, _, _ => (None, cur, stack)
  end.

Definition decode_step (d : decodeState) (c : byte) : decodeState :=
  let '(s', op) := scan_step (scan d) c in
  match op with
  | scanContinue =>
      mkDecodeState s' (option_map (cons c) (lit d)) (cur d) (stack d)
  | _ =>
      let cur1 :=
        match lit d with
        | Some l => Some (literal_value (rev l))
        | None => cur d
        end in
      let '(l2, cur2, stack2) := build op c cur1 (stack d) in
      mkDecodeState s' l2 cur2 stack2
  end.

(** The document of a valid input.  The scanner is fed a final space, as
    [eof] does, which ends a number at the top level. *)
Definition decode (data : list byte) : option value :=
  let d := fold_left decode_step data (mkDecodeState reset None None []) in
  cur (decode_step d x20).

(** *** decode.go: errors *)

Inductive error : Type :=
| SyntaxError
| UnmarshalTypeError (Value : string) (Field : string).

(** [d.saveError(err)]: the first error is kept. *)
Definition saveError (saved new : option error) : option error :=
  match saved with Some _ => saved | None => new end.

(** *** [json.Unmarshal(data, &v)] for [var v interface{}] *)

(** The value of an empty interface after the call; a slice and a map keep
    their elements as documents. *)
Inductive iface : Type :=
| iface_nil
| iface_bool (b : bool)
| iface_float64 (lit : list byte)     (* the float64 the literal denotes *)
| iface_string (s : string)
| iface_slice (elems : list value)
| iface_map (members : list (list byte * value)).

Definition number_error (lit : list byte) : option error :=
  if float64_overflows lit
  then Some (UnmarshalTypeError ("number " ++ string_of_bytes lit) "")
  else None.

(** The first number of the document that [convertNumber] refuses. *)
Fixpoint convert_errors (v : value) : option error :=
  match v with
  | JNumber lit => number_error lit
  | JArray l =>
      (fix go (l : list value) : option error :=
         match l with
         | [] => None
         | x :: r => saveError (convert_errors x) (go r)
         end) l
  | JObject m =>
      (fix go (m : list (list byte * value)) : option error :=
         match m with
         | [] => None
         | (_, x) :: r => saveError (convert_errors x) (go r)
         end) m
  | _ => None
  end.

(** What is stored into an interface that holds nil.  A number that
    [convertNumber] refuses is not stored.  Were [unquoteBytes] to fail the
    library would panic, and the model leaves the interface as it is; it
    never fails on a literal the scanner accepted (theorem [decode_valid]
    below). *)
Definition valueInterface (v : value) : iface :=
  match v with
  | JNull => iface_nil
  | JBool b => iface_bool b
  | JNumber lit =>
      if float64_overflows lit then iface_nil else iface_float64 lit
  | JString lit =>
      match unquoteBytes lit with
      | Some s => iface_string (string_of_bytes s)
      | None => iface_nil
      end
  | JArray l => iface_slice l
  | JObject m => iface_map m
  end.

(** The interface after the call, and the error returned.  An invalid
    input is refused before anything is stored.  ([decode] always finds the
    document of a valid input: theorem [decode_valid] below.) *)
Definition Unmarshal_interface (data : list byte) : iface * option error :=
  if checkValid data then
    match decode data with
    | Some v => (valueInterface v, convert_errors v)
    | None => (iface_nil, None)
    end
  else (iface_nil, Some SyntaxError).

(** *** [json.Unmarshal(data, &ns)] for [ns sql.NullString] *)

(** [foldName]: ASCII letters to upper case.  Of the other runes only
    U+017F (long s) and U+212A (Kelvin sign) fold to an ASCII letter; the
    rest stay outside ASCII and are kept as they are. *)
Fixpoint foldName (k : list byte) : list byte :=
  match k with
  | [] => []
  | c :: rest =>
      let plain :=
        (if between 97 122 (code c) then byte_of (code c - 32) else c)
        :: foldName rest in
      match rest with
      | c1 :: rest1 =>
          if Byte.eqb c xc5 && Byte.eqb c1 xbf
          then x53 :: foldName rest1
          else
            match rest1 with
            | c2 :: rest2 =>
                if Byte.eqb c xe2 && Byte.eqb c1 x84 && Byte.eqb c2 xaa
                then x4b :: foldName rest2
                else plain
            | [] => plain
            end
      | [] => plain
      end
  end.

Inductive field : Type := field_String | field_Valid.

(** The field of [sql.NullString] an object key names, if any.  (A key
    the scanner accepted is always unquoted: lemma [members_unquoted].) *)
Definition field_of (key : list byte) : option field :=
  match unquoteBytes key with
  | Some k =>
      let f := string_of_bytes (foldName k) in
      if (f =? "STRING")%string then Some field_String
      else if (f =? "VALID")%string then Some field_Valid
      else None
  | None => None
  end.

(** The [Value] of an [UnmarshalTypeError]. *)
Definition describe (v : value) : string :=
  match v with
  | JNull => "null"
  | JBool _ => "bool"
  | JNumber _ => "number"
  | JString _ => "string"
  | JArray _ => "array"
  | JObject _ => "object"
  end.

(** Storing a document into a field of kind string: null is ignored, a
    string is stored, anything else is a type error and leaves the field.
    (A string the scanner accepted is always unquoted: lemma
    [members_unquoted].) *)
Definition store_String (v : value) (ns : sql.NullString)
    : sql.NullString * option error :=
  match v with
  | JNull => (ns, None)
  | JString l =>
      match unquoteBytes l with
      | Some s =>
          (sql.mkNullString (string_of_bytes s) (sql.Valid ns), None)
      | None => (ns, None)
      end
  | _ => (ns, Some (UnmarshalTypeError (describe v) "String"))
  end.

(** Storing a document into a field of kind bool. *)
Definition store_Valid (v : value) (ns : sql.NullString)
    : sql.NullString * option error :=
  match v with
  | JNull => (ns, None)
  | JBool b => (sql.mkNullString (sql.String ns) b, None)
  | _ => (ns, Some (UnmarshalTypeError (describe v) "Valid"))
  end.

(** [d.object(v)] for a struct: the members in order; an unknown key is
    skipped, a type error is saved and decoding goes on. *)
Fixpoint object_NullString (ms : list (list byte * value))
    (ns : sql.NullString) : sql.NullString * option error :=
  match ms with
  | [] => (ns, None)
  | (k, v) :: rest =>
      let '(ns1, e1) :=
        match field_of k with
        | Some field_String => store_String v ns
        | Some field_Valid => store_Valid v ns
        | None => (ns, None)
        end in
      let '(ns2, e2) := object_NullString rest ns1 in
      (ns2, saveError e1 e2)
  end.

Definition Unmarshal_NullString (data : list byte) (ns : sql.NullString)
    : sql.NullString * option error :=
  if checkValid data then
    match decode data with
    | Some (JObject ms) => object_NullString ms ns
    | Some JNull | None => (ns, None)
    | Some v => (ns, Some (UnmarshalTypeError (describe v) ""))
    end
  else (ns, Some SyntaxError).

End json.

(** ** Package null (string.go) *)

Module null.

(** [type String struct { sql.NullString }] *)
Record String : Type := mkString {
  NullString : sql.NullString
}.

(** The promoted fields [s.String] and [s.Valid]. *)
Definition String_ (s : String) : string := sql.String (NullString s).
Definition Valid (s : String) : bool := sql.Valid (NullString s).

Definition NewString (s : string) (valid : bool) : String :=
  mkString (sql.mkNullString s valid).

Definition StringFrom (s : string) : String :=
  NewString s (nonempty s).

Definition StringFromPtr (s : option string) : String :=
  match s with
  | None => NewString "" false
  | Some x => let str := NewString x (nonempty x) in str
  end.

(** The assignments [s.String = x] and [s.Valid = b]. *)
Definition set_String (s : String) (x : string) : String :=
  mkString (sql.mkNullString x (Valid s)).
Definition set_Valid (s : String) (b : bool) : String :=
  mkString (sql.mkNullString (String_ s) b).

(** [err == nil] *)
Definition is_nil (e : option json.error) : bool :=
  match e with None => true | Some _ => false end.

(** The statement after the switch:
    [s.Valid = (err == nil) && (s.String != ""); return err]. *)
Definition after_switch (s : String) (err : option json.error)
    : String * option json.error :=
  (set_Valid s (is_nil err && nonempty (String_ s)), err).

(** The receiver after the call, and the error returned.  The error of the
    first [json.Unmarshal] is dropped, as in the source. *)
Definition UnmarshalJSON (s : String) (data : list byte)
    : String * option json.error :=
  let err : option json.error := None in
  let v := fst (json.Unmarshal_interface data) in
  match v with
  | json.iface_string x => after_switch (set_String s x) err
  | json.iface_map _ =>
      let '(ns, err) := json.Unmarshal_NullString data (NullString s) in
      after_switch (mkString ns) err
  | json.iface_nil => (set_Valid s false, None)
  | _ => after_switch s err
  end.

Definition MarshalText (s : String) : list byte * option json.error :=
  if negb (Valid s) then ([], None)
  else (bytes_of_string (String_ s), None).

Definition UnmarshalText (s : String) (text : list byte)
    : String * option json.error :=
  let s := set_String s (string_of_bytes text) in
  let s := set_Valid s (nonempty (String_ s)) in
  (s, None).

Definition Ptr (s : String) : option string :=
  if negb (Valid s) then None else Some (String_ s).

Definition IsZero (s : String) : bool :=
  negb (Valid s) || (String_ s =? "")%string.

End null.

(** ** Vocabulary of the specification *)

(** The zero value of [String]: the receiver of a fresh [var s String]. *)
Definition zero : null.String := null.NewString "" false.

(** The state Null of the specification; Present(x) is the value
    [NewString x true]. *)
Definition Null (s : null.String) : Prop := null.Valid s = false.

(** The invariant of the data model: an empty value is never valid. *)
Definition normalised (s : null.String) : Prop :=
  null.String_ s = "" -> null.Valid s = false.

(** The input parses as a JSON object. *)
Definition parses_as_object (data : list byte) : Prop :=
  json.checkValid data = true /\
  exists ms, json.decode data = Some (json.JObject ms).

(** JSON texts.  [quoted s] is [s] between double quotes. *)
Definition dq : string := String "034"%char "".
Definition quoted (s : string) : string := dq ++ s ++ dq.
Definition text (s : string) : list byte := bytes_of_string s.

(** [{"String":<str>,"Valid":<valid>}] *)
Definition structured (str valid : string) : list byte :=
  text ("{" ++ quoted "String" ++ ":" ++ str ++ ","
            ++ quoted "Valid" ++ ":" ++ valid ++ "}").

(** ** The decoder's invariant *)

(** The steps that wait for a value or a key. *)
Definition begin_state (st : json.stepState) : bool :=
  match st with
  | json.stateBeginValueOrEmpty | json.stateBeginValue
  | json.stateBeginStringOrEmpty | json.stateBeginString => true
  | _ => false
  end.

(** The steps that can hand the next byte to [stateEndValue]: a value is
    complete, or a number may end here. *)
Definition value_done (st : json.stepState) : bool :=
  match st with
  | json.stateEndValue | json.state1 | json.state0 | json.stateDot0
  | json.stateE0 => true
  | _ => false
  end.

(** The steps inside a literal. *)
Definition literal_state (st : json.stepState) : bool :=
  match st with
  | json.stateBeginValueOrEmpty | json.stateBeginValue
  | json.stateBeginStringOrEmpty | json.stateBeginString
  | json.stateEndValue | json.stateEndTop | json.stateError => false
  | _ => true
  end.

(** The two steps that may close a container at once are only entered just
    after it was opened. *)
Definition scanner_ok (s : json.scanner) : Prop :=
  match json.step s, json.parseState s with
  | json.stateBeginValueOrEmpty, json.parseArrayValue :: _ => True
  | json.stateBeginValueOrEmpty, _ => False
  | json.stateBeginStringOrEmpty, json.parseObjectKey :: _ => True
  | json.stateBeginStringOrEmpty, _ => False
  | _, _ => True
  end.

(** The scanner after a container is closed, [r] being the entries left. *)
Definition popped (s s' : json.scanner) (r : list json.parseKind) : Prop :=
  json.parseState s' = r /\
  match r with
  | [] => json.step s' = json.stateEndTop /\ json.endTop s' = true
  | _ :: _ =>
      json.step s' = json.stateEndValue /\ json.endTop s' = json.endTop s
  end.

Definition same_nesting (s s' : json.scanner) : Prop :=
  json.parseState s' = json.parseState s /\ json.endTop s' = json.endTop s.

(** What an opcode tells about the step taken from [s] to [s']. *)
Definition transition (s : json.scanner) (op : json.opcode)
    (s' : json.scanner) : Prop :=
  let st := json.step s in
  let st' := json.step s' in
  match op with
  | json.scanContinue =>
      same_nesting s s' /\ literal_state st = true /\
      (literal_state st' = true \/ st' = json.stateEndValue)
  | json.scanBeginLiteral =>
      same_nesting s s' /\ begin_state st = true /\ literal_state st' = true
  | json.scanBeginObject =>
      json.parseState s' = json.parseObjectKey :: json.parseState s /\
      json.endTop s' = json.endTop s /\ begin_state st = true /\
      st' = json.stateBeginStringOrEmpty
  | json.scanBeginArray =>
      json.parseState s' = json.parseArrayValue :: json.parseState s /\
      json.endTop s' = json.endTop s /\ begin_state st = true /\
      st' = json.stateBeginValueOrEmpty
  | json.scanObjectKey =>
      exists r, json.parseState s = json.parseObjectKey :: r /\
      json.parseState s' = json.parseObjectValue :: r /\
      json.endTop s' = json.endTop s /\ value_done st = true /\
      st' = json.stateBeginValue
  | json.scanObjectValue =>
      exists r, json.parseState s = json.parseObjectValue :: r /\
      json.parseState s' = json.parseObjectKey :: r /\
      json.endTop s' = json.endTop s /\ value_done st = true /\
      st' = json.stateBeginString
  | json.scanArrayValue =>
      exists r, json.parseState s = json.parseArrayValue :: r /\
      same_nesting s s' /\ value_done st = true /\
      st' = json.stateBeginValue
  | json.scanEndObject =>
      exists k r, json.parseState s = k :: r /\ popped s s' r /\
      ((k = json.parseObjectValue /\ value_done st = true) \/
       (k = json.parseObjectKey /\ st = json.stateBeginStringOrEmpty))
  | json.scanEndArray =>
      exists r, json.parseState s = json.parseArrayValue :: r /\
      popped s s' r /\
      (value_done st = true \/ st = json.stateBeginValueOrEmpty)
  | json.scanSkipSpace =>
      same_nesting s s' /\
      ((st' = st /\ begin_state st = true) \/
       (st' = json.stateEndValue /\ value_done st = true))
  | json.scanEnd =>
      json.parseState s' = json.parseState s /\
      (st' = json.stateEndTop \/ st' = json.stateError) /\
      ((st = json.stateEndTop /\ json.endTop s' = json.endTop s) \/
       (value_done st = true /\ json.endTop s' = true))
  | json.scanError =>
      st' = json.stateError /\ json.endTop s' = json.endTop s
  end.

(** A container being read and the scanner's entry for it. *)
Definition frame_matches (f : json.frame) (k : json.parseKind) : Prop :=
  match f, k with
  | json.FArray _, json.parseArrayValue => True
  | json.FObject _ None, json.parseObjectKey => True
  | json.FObject _ (Some _), json.parseObjectValue => True
  | _, _ => False
  end.

Fixpoint frames_match (fs : list json.frame) (ks : list json.parseKind)
    : Prop :=
  match fs, ks with
  | [], [] => True
  | f :: fs, k :: ks => frame_matches f k /\ frames_match fs ks
  | _, _ => False
  end.

(** What the step promises about the literal being read and the value just
    completed. *)
Definition step_ok (d : json.decodeState) : Prop :=
  let st := json.step (json.scan d) in
  scanner_ok (json.scan d) /\
  (literal_state st = true -> json.lit d <> None) /\
  (st = json.stateEndValue -> json.lit d <> None \/ json.cur d <> None).

Definition decoder_inv (d : json.decodeState) : Prop :=
  (json.endTop (json.scan d) = true ->
   (json.step (json.scan d) = json.stateEndTop \/
    json.step (json.scan d) = json.stateError) /\
   json.cur d <> None) /\
  (json.step (json.scan d) <> json.stateError ->
   frames_match (json.stack d) (json.parseState (json.scan d)) /\
   step_ok d).

(** The decoder after the whole input. *)
Definition decode_run (data : list byte) : json.decodeState :=
  fold_left json.decode_step data
    (json.mkDecodeState json.reset None None []).


(** *** String literals *)

(** The steps inside a string literal. *)
Definition in_string (st : json.stepState) : bool :=
  match st with
  | json.stateInString | json.stateInStringEsc | json.stateInStringEscU
  | json.stateInStringEscU1 | json.stateInStringEscU12
  | json.stateInStringEscU123 => true
  | _ => false
  end.

(** The scanner's step seen from inside a string, where the nesting plays
    no part. *)
Definition string_step (st : json.stepState) (c : byte) : json.stepState :=
  json.step (fst (json.scan_step (json.mkScanner st false [] false) c)).

(** The step reached from [stateInString] after the bytes [body]. *)
Definition string_run_from (st : json.stepState) (body : list byte)
    : json.stepState :=
  fold_left string_step body st.

Definition string_run (body : list byte) : json.stepState :=
  string_run_from json.stateInString body.

Definition is_some {A : Type} (o : option A) : bool :=
  match o with Some _ => true | None => false end.

(** A complete string literal: quoted, and read by the scanner from
    [stateInString] back to [stateInString] between the quotes. *)
Definition closed_string (lit : list byte) : Prop :=
  exists body, lit = json.dquote :: body ++ [json.dquote] /\
    string_run body = json.stateInString.

(** Every string literal and key of the document is unquoted without
    failure. *)
Fixpoint strings_ok (v : json.value) : bool :=
  match v with
  | json.JString l => is_some (json.unquoteBytes l)
  | json.JArray l =>
      (fix go (l : list json.value) : bool :=
         match l with
         | [] => true
         | x :: r => strings_ok x && go r
         end) l
  | json.JObject m =>
      (fix go (m : list (list byte * json.value)) : bool :=
         match m with
         | [] => true
         | (k, x) :: r =>
             is_some (json.unquoteBytes k) && strings_ok x && go r
         end) m
  | _ => true
  end.

Definition member_ok (kv : list byte * json.value) : bool :=
  is_some (json.unquoteBytes (fst kv)) && strings_ok (snd kv).

Definition frame_ok (f : json.frame) : bool :=
  match f with
  | json.FArray es => forallb strings_ok es
  | json.FObject ms ko =>
      forallb member_ok ms &&
      match ko with
      | Some k => is_some (json.unquoteBytes k)
      | None => true
      end
  end.

Definition is_key_top (ps : list json.parseKind) : bool :=
  match ps with
  | json.parseObjectKey :: _ => true
  | _ => false
  end.

Definition is_key (k : json.parseKind) : bool :=
  match k with json.parseObjectKey => true | _ => false end.

(** Only the innermost entry of the nesting can be an object key, a value
    is never awaited in the place of a key, and the error step records its
    error. *)
Definition keys_ok (s : json.scanner) : Prop :=
  forallb (fun k => negb (is_key k)) (tl (json.parseState s)) = true /\
  (json.step s = json.stateBeginValue \/
   json.step s = json.stateBeginValueOrEmpty ->
   is_key_top (json.parseState s) = false) /\
  (json.step s = json.stateError -> json.err s = true).

(** The literal being read, [l] holding its bytes last first. *)
Definition lit_inv (s : json.scanner) (l : list byte) : Prop :=
  exists c0 body, rev l = c0 :: body /\
    ((c0 = json.dquote /\
      ((in_string (json.step s) = true /\ string_run body = json.step s) \/
       (json.step s = json.stateEndValue /\ closed_string (rev l)))) \/
     (c0 <> json.dquote /\ in_string (json.step s) = false /\
      is_key_top (json.parseState s) = false)).

Definition strings_inv (d : json.decodeState) : Prop :=
  json.step (json.scan d) <> json.stateError ->
  match json.cur d with Some v => strings_ok v = true | None => True end /\
  forallb frame_ok (json.stack d) = true /\
  match json.lit d with
  | Some l =>
      (literal_state (json.step (json.scan d)) = true \/
       json.step (json.scan d) = json.stateEndValue) /\
      lit_inv (json.scan d) l
  | None => True
  end /\
  (is_key_top (json.parseState (json.scan d)) = true ->
   json.step (json.scan d) = json.stateEndValue -> json.lit d = None ->
   exists k, json.cur d = Some (json.JString k)).

(** The steps after a literal is closed are never left for a string. *)
Definition dead (st : json.stepState) : bool :=
  match st with
  | json.stateEndValue | json.stateEndTop | json.stateError => true
  | _ => false
  end.

(** What the scanner's step tells about keys and about the kind of the
    literal being read. *)
Definition literal_transition (s : json.scanner) (c : byte)
    (op : json.opcode) (s' : json.scanner) : Prop :=
  match op with
  | json.scanBeginLiteral =>
      (c = json.dquote /\ json.step s' = json.stateInString) \/
      (c <> json.dquote /\ in_string (json.step s') = false /\
       is_key_top (json.parseState s) = false)
  | json.scanContinue =>
      if in_string (json.step s)
      then json.step s' = string_step (json.step s) c /\
           (in_string (json.step s') = true \/
            (json.step s = json.stateInString /\ c = json.dquote /\
             json.step s' = json.stateEndValue))
      else in_string (json.step s') = false
  | json.scanError => True
  | _ => in_string (json.step s) = false
  end.

(** ** Vocabulary of the further properties *)

(** The documents the type switch of [UnmarshalJSON] has no case for: a
    boolean, an array, and a number that fits a float64. *)
Definition unsupported_shape (v : json.value) : bool :=
  match v with
  | json.JBool _ | json.JArray _ => true
  | json.JNumber lit => negb (json.float64_overflows lit)
  | _ => false
  end.

(** A byte that stands for itself inside a JSON string: printable ASCII
    other than the double quote and the backslash. *)
Definition plain_byte (b : byte) : bool :=
  json.between 32 127 (json.code b)
  && negb (Byte.eqb b json.dquote) && negb (Byte.eqb b json.backslash).

Definition plain_text (x : string) : bool :=
  forallb plain_byte (bytes_of_string x).

(** What a member of an object stores into the field [String], if
    anything. *)
Definition member_string (kv : list byte * json.value) : option string :=
  match json.field_of (fst kv), snd kv with
  | Some json.field_String, json.JString l =>
      option_map string_of_bytes (json.unquoteBytes l)
  | _, _ => None
  end.

(** The field [String] after the members [ms], starting from [x]: the last
    member that stores into it wins. *)
Definition last_string (ms : list (list byte * json.value)) (x : string)
    : string :=
  fold_left (fun acc kv =>
               match member_string kv with Some y => y | None => acc end)
    ms x.

(** The scanner inside a string literal at the top level. *)
Definition in_literal : json.scanner :=
  json.mkScanner json.stateInString false [] false.

(** The documents that leave the interface nil: [null], and a number too
    large for a float64. *)
Definition nil_shape (v : json.value) : bool :=
  match v with
  | json.JNull => true
  | json.JNumber lit => json.float64_overflows lit
  | _ => false
  end.

(** ** Properties *)

(** *** The model of encoding/json on sample inputs *)

Example checkValid_accepts :
  forallb json.checkValid
    [text "null"; text " true "; text "-0.5e+3"; text "[]"; text "{}";
     text ("[1, " ++ quoted "a\n\u00e9" ++ ", {" ++ quoted "k"
             ++ ": [null]}]")]
  = true.
Proof. vm_compute. reflexivity. Qed.

Example checkValid_rejects :
  existsb json.checkValid
    [text ""; text " "; text "{"; text "not json"; text "01"; text "1.";
     text "-"; text "[1,]"; text "nul"; text "null null"; text "tru e";
     text ("{" ++ quoted "a" ++ ":1,}"); text (quoted "\x");
     text (dq ++ "open")]
  = false.
Proof. vm_compute. reflexivity. Qed.

Example decode_nested :
  json.decode (text (" { " ++ quoted "a" ++ " : [1, null] , "
                          ++ quoted "b" ++ ":true}"))
  = Some (json.JObject
            [(text (quoted "a"),
              json.JArray [json.JNumber (text "1"); json.JNull]);
             (text (quoted "b"), json.JBool true)]).
Proof. vm_compute. reflexivity. Qed.

Example unquoteBytes_escapes :
  json.unquoteBytes (text (quoted "a\n\u00e9\/\ud83d\ude00\udc00"))
  = Some ([x61; x0a; xc3; xa9; x2f; xf0; x9f; x98; x80; xef; xbf; xbd]).
Proof. vm_compute. reflexivity. Qed.

Example unquoteBytes_coerces_malformed_utf8 :
  json.unquoteBytes [x22; xff; xc3; xa9; xe2; x82; x22]
  = Some [xef; xbf; xbd; xc3; xa9; xef; xbf; xbd; xef; xbf; xbd].
Proof. vm_compute. reflexivity. Qed.

Example float64_range :
  map json.float64_overflows
    [text "42"; text "1.7976931348623158e308"; text "1.7976931348623159e308";
     text "-1e999"; text "1e-999"]
  = [false; false; true; true; false].
Proof. vm_compute. reflexivity. Qed.

(** A number too large for a float64 leaves the interface nil; the type
    switch of [UnmarshalJSON] then takes the nil case, unlike for [42]. *)
Example UnmarshalJSON_numbers :
  null.UnmarshalJSON (null.NewString "kept" true) (text "42")
    = (null.NewString "kept" true, None) /\
  null.UnmarshalJSON (null.NewString "kept" true) (text "1e999")
    = (null.NewString "kept" false, None).
Proof. split; vm_compute; reflexivity. Qed.

(** Keys are matched to the fields without regard to case, an unknown key
    is skipped, a null member leaves its field alone, and a member of the
    wrong type is an error after which decoding goes on. *)
Example Unmarshal_NullString_members :
  json.Unmarshal_NullString
    (text ("{" ++ quoted "STRING" ++ ":" ++ quoted "a" ++ ","
               ++ quoted "other" ++ ":[1e999],"
               ++ quoted "valid" ++ ":null}"))
    (sql.mkNullString "old" true)
    = (sql.mkNullString "a" true, None) /\
  json.Unmarshal_NullString
    (text ("{" ++ quoted "String" ++ ":5," ++ quoted "Valid" ++ ":true}"))
    (sql.mkNullString "old" false)
    = (sql.mkNullString "old" true,
       Some (json.UnmarshalTypeError "number" "String")).
Proof. split; vm_compute; reflexivity. Qed.

(** The one error [UnmarshalJSON] returns: an object whose member has the
    wrong type.  The receiver is left Null. *)
Example UnmarshalJSON_type_error :
  null.UnmarshalJSON zero (structured "5" "true")
    = (null.NewString "" false,
       Some (json.UnmarshalTypeError "number" "String")) /\
  null.UnmarshalJSON (null.NewString "old" true)
      (structured (quoted "new") (quoted "yes"))
    = (null.NewString "new" false,
       Some (json.UnmarshalTypeError "string" "Valid")).
Proof. split; vm_compute; reflexivity. Qed.

(** *** The decoder on valid input *)

Section Decoder.

Lemma isChar_true (ch : string) (c : byte) :
  json.isChar ch c = true -> bytes_of_string ch = [c].
Proof.
  unfold json.isChar.
  destruct (bytes_of_string ch) as [ | b [ | ? ? ] ]; try discriminate.
  intros H. now rewrite (Byte.byte_dec_bl _ _ H).
Qed.

Ltac scanner_cbn :=
  cbn [json.scan json.step json.endTop json.parseState json.err fst snd
       begin_state value_done literal_state] in *.

Ltac closed_term t :=
  tryif (match t with context [?v] => is_var v end) then fail else idtac.

Ltac split_if :=
  match goal with
  | |- context [if ?b then _ else _] =>
      closed_term b;
      let v := eval vm_compute in b in change b with v
  | |- context [if json.isChar ?ch ?c then _ else _] =>
      let H := fresh "H" in
      destruct (json.isChar ch c) eqn:H;
      [ apply isChar_true in H; injection H as <- | ]
  | |- context [if ?b then _ else _] => destruct b eqn:?
  | |- context [match ?x with _ => _ end] => is_var x; destruct x
  end; scanner_cbn.

Lemma scan_step_transition (s : json.scanner) (c : byte) :
  scanner_ok s ->
  transition s (snd (json.scan_step s c)) (fst (json.scan_step s c)).
Proof.
  destruct s as [st et ps er].
  unfold scanner_ok, transition, popped, same_nesting, json.scan_step.
  scanner_cbn. intros Hok.
  destruct st.
  all: unfold json.do_stateBeginValue, json.do_stateBeginString,
         json.do_state0, json.do_stateESign, json.expect, json.hexTo,
         json.do_stateEndValue, json.do_stateEndTop, json.pushParseState,
         json.scan_error, json.goto, json.setTop, json.popParseState;
       scanner_cbn.
  all: repeat split_if.
  all: try contradiction.
  all: try solve [ repeat split; auto ].
  all: try solve [ eexists; repeat split; auto ].
  all: try solve [ eexists; eexists; repeat split; auto ].
  all: destruct p; try contradiction; do 2 eexists;
       (split; [ reflexivity | ]);
       (split; [ repeat split | right; split; reflexivity ]).
Qed.

Lemma frames_match_cons f fs ks :
  frames_match (f :: fs) ks ->
  exists k r, ks = k :: r /\ frame_matches f k /\ frames_match fs r.
Proof.
  destruct ks as [ | k r ]; [ contradiction | ].
  intros [H1 H2]. now exists k, r.
Qed.

Lemma decoder_inv_step (d : json.decodeState) (c : byte) :
  decoder_inv d -> decoder_inv (json.decode_step d c).
Proof.
  destruct d as [s l cu sk]. unfold decoder_inv, step_ok, json.decode_step.
  cbn [json.scan json.lit json.cur json.stack].
  intros [HA HB].
  set (cur1 := match l with
               | Some l0 => Some (json.literal_value (rev l0))
               | None => cu
               end).
  assert (H1 : l <> None \/ cu <> None -> cur1 <> None)
    by (subst cur1; destruct l; [ discriminate | intros [H | H]; congruence ]).
  assert (H2 : l <> None -> option_map (cons c) l <> None)
    by (destruct l; [ discriminate | congruence ]).
  clearbody cur1.
  assert (Herr : json.step s = json.stateError \/
                 json.step s <> json.stateError)
    by (destruct (json.step s); (now left) || (right; discriminate)).
  destruct Herr as [Herr | Herr].
  - assert (E : json.scan_step s c = (s, json.scanError))
      by (unfold json.scan_step; now rewrite Herr).
    rewrite E. cbn. split; [ | intros H; contradiction ].
    intros Het. destruct (HA Het) as [Hst Hcu]. split; auto.
  - destruct (HB Herr) as (Hfm & Hok & Hlit & Hend).
    assert (Hnot : json.endTop s = true ->
                   literal_state (json.step s) = false /\
                   begin_state (json.step s) = false /\
                   value_done (json.step s) = false)
      by (intros Het; destruct (HA Het) as [[-> | ->] _]; repeat split).
    assert (Hval : value_done (json.step s) = true -> cur1 <> None)
      by (intros Hv; apply H1; destruct (json.step s); try discriminate Hv;
          (now apply Hend) || (left; now apply Hlit)).
    pose proof (scan_step_transition s c Hok) as T.
    destruct (json.scan_step s c) as [[st' et' ps' er'] op].
    destruct s as [st et ps er].
    unfold transition, same_nesting, popped, scanner_ok in *.
    cbn [fst snd json.step json.endTop json.parseState json.err] in *.
    destruct op; cbn [json.scan json.lit json.cur json.stack json.build
                      json.step json.endTop json.parseState json.err].
    + (* scanContinue *)
      destruct T as ((-> & ->) & Hl & Hst'). split.
      * intros Het. destruct (Hnot Het) as (Hn & _). congruence.
      * intros _. split; [ assumption | ].
        destruct Hst' as [Hst' | ->]; cbn.
        -- repeat split; auto; destruct st'; try discriminate Hst'; auto;
             discriminate.
        -- repeat split; auto.
    + (* scanBeginLiteral *)
      destruct T as ((-> & ->) & Hb & Hst'). split.
      * intros Het. destruct (Hnot Het) as (_ & Hn & _). congruence.
      * intros _. split; [ assumption | ].
        repeat split; try discriminate;
          destruct st'; try discriminate Hst'; auto; discriminate.
    + (* scanBeginObject *)
      destruct T as (-> & -> & Hb & ->). split.
      * intros Het. destruct (Hnot Het) as (_ & Hn & _). congruence.
      * intros _. cbn. repeat split; auto; discriminate.
    + (* scanObjectKey *)
      destruct T as (r & -> & -> & -> & Hv & ->).
      specialize (Hval Hv).
      destruct sk as [ | [ es | ms [ k | ] ] sk ]; cbn in Hfm;
        try (exfalso; tauto).
      destruct cur1 as [ v | ]; [ | congruence ]. split.
      * intros Het. destruct (Hnot Het) as (_ & _ & Hn). congruence.
      * intros _. cbn. repeat split; try tauto; discriminate.
    + (* scanObjectValue *)
      destruct T as (r & -> & -> & -> & Hv & ->).
      specialize (Hval Hv).
      destruct sk as [ | [ es | ms [ k | ] ] sk ]; cbn in Hfm;
        try (exfalso; tauto).
      destruct cur1 as [ v | ]; [ | congruence ]. split.
      * intros Het. destruct (Hnot Het) as (_ & _ & Hn). congruence.
      * intros _. cbn. repeat split; try tauto; discriminate.
    + (* scanEndObject *)
      destruct T as (k & r & -> & (-> & Hpop) & Hk).
      assert (Hnb : et = true -> False).
      { intros Het. destruct (Hnot Het) as (_ & Hb & Hn).
        destruct Hk as [[_ Hk] | [_ Hk]]; [ congruence | ].
        rewrite Hk in Hb. discriminate. }
      destruct sk as [ | f sk ]; [ contradiction | ].
      destruct Hfm as [Hf Hfm].
      destruct f as [ es | ms ko ];
        [ exfalso; destruct Hk as [[-> _] | [-> _]]; exact Hf | ].
      assert (Hcur : exists v, json.build json.scanEndObject c cur1
                                 (json.FObject ms ko :: sk)
                               = (None, Some v, sk))
        by (destruct ko, cur1; cbn; eauto).
      destruct Hcur as [v Hcur]. cbn in Hcur. rewrite Hcur. cbn.
      destruct r; destruct Hpop as [-> ->].
      * repeat split; auto; discriminate.
      * split; [ intros Het; contradiction | ].
        intros _. repeat split; try tauto; try discriminate.
        right. discriminate.
    + (* scanBeginArray *)
      destruct T as (-> & -> & Hb & ->). split.
      * intros Het. destruct (Hnot Het) as (_ & Hn & _). congruence.
      * intros _. cbn. repeat split; auto; discriminate.
    + (* scanArrayValue *)
      destruct T as (r & -> & (-> & ->) & Hv & ->).
      specialize (Hval Hv).
      destruct sk as [ | [ es | ms ko ] sk ]; cbn in Hfm;
        try (exfalso; tauto); try (exfalso; destruct ko; tauto).
      destruct cur1 as [ v | ]; [ | congruence ]. split.
      * intros Het. destruct (Hnot Het) as (_ & _ & Hn). congruence.
      * intros _. cbn. repeat split; try tauto; discriminate.
    + (* scanEndArray *)
      destruct T as (r & -> & (-> & Hpop) & Hk).
      assert (Hnb : et = true -> False).
      { intros Het. destruct (Hnot Het) as (_ & Hb & Hn).
        destruct Hk as [Hk | Hk]; [ congruence | ].
        rewrite Hk in Hb. discriminate. }
      destruct sk as [ | f sk ]; [ contradiction | ].
      destruct Hfm as [Hf Hfm].
      destruct f as [ es | ms ko ]; [ | exfalso; destruct ko; exact Hf ].
      assert (Hcur : exists v, json.build json.scanEndArray c cur1
                                 (json.FArray es :: sk)
                               = (None, Some v, sk))
        by (destruct cur1; cbn; eauto).
      destruct Hcur as [v Hcur]. cbn in Hcur. rewrite Hcur. cbn.
      destruct r; destruct Hpop as [-> ->].
      * repeat split; auto; discriminate.
      * split; [ intros Het; contradiction | ].
        intros _. repeat split; try tauto; try discriminate.
        right. discriminate.
    + (* scanSkipSpace *)
      destruct T as ((-> & ->) & Hst'). split.
      * intros Het. destruct (Hnot Het) as (_ & Hb & Hn).
        destruct Hst' as [[_ Hst'] | [_ Hst']]; congruence.
      * intros _. split; [ assumption | ].
        destruct Hst' as [[-> Hb] | [-> Hv]].
        -- repeat split; auto; destruct st; try discriminate Hb;
             intros; discriminate.
        -- repeat split; auto; discriminate.
    + (* scanEnd *)
      destruct T as (-> & Hst' & Hst). split.
      * intros Het. split; [ assumption | ].
        destruct Hst as [[-> ->] | [Hv _]]; [ | now apply Hval ].
        apply H1. right. now apply HA.
      * intros Hne. destruct Hst' as [-> | ->]; [ | contradiction ].
        repeat split; auto; discriminate.
    + (* scanError *)
      destruct T as (-> & ->). split; [ | intros H; contradiction ].
      intros Het. split; [ now right | ].
      apply H1. right. now apply HA.
Qed.

Lemma scan_decode_step (d : json.decodeState) (c : byte) :
  json.scan (json.decode_step d c) = fst (json.scan_step (json.scan d) c).
Proof.
  unfold json.decode_step.
  destruct (json.scan_step (json.scan d) c) as [s' op].
  destruct op; try reflexivity;
    match goal with
    | |- context [json.build ?o ?c ?v ?k] =>
        destruct (json.build o c v k) as [[? ?] ?]; reflexivity
    end.
Qed.

Lemma decoder_inv_run (data : list byte) (d : json.decodeState) :
  decoder_inv d -> decoder_inv (fold_left json.decode_step data d).
Proof.
  revert d. induction data as [ | c data IH ]; intros d H; [ exact H | ].
  cbn. apply IH. now apply decoder_inv_step.
Qed.

Lemma decoder_inv_reset :
  decoder_inv (json.mkDecodeState json.reset None None []).
Proof.
  split; cbn; [ discriminate | ]. intros _. repeat split; discriminate.
Qed.

(** [checkValid] and the decoder run the same scanner. *)
Lemma checkValid_from_eof (data : list byte) (d : json.decodeState) :
  json.checkValid_from (json.scan d) data = true ->
  json.eof (json.scan (fold_left json.decode_step data d)) <> json.scanError.
Proof.
  revert d. induction data as [ | c data IH ]; intros d H; cbn in *.
  - destruct (json.eof (json.scan d)); discriminate.
  - apply IH. rewrite scan_decode_step.
    destruct (json.scan_step (json.scan d) c) as [s' op].
    destruct op; cbn in *; (exact H || discriminate H).
Qed.

End Decoder.

(** *** String literals are unquoted without failure *)

Section Strings.

Ltac scanner_cbn :=
  cbn [json.scan json.step json.endTop json.parseState json.err fst snd
       begin_state value_done literal_state in_string] in *.

Ltac unfold_steps :=
  unfold json.do_stateBeginValue, json.do_stateBeginString,
    json.do_state0, json.do_stateESign, json.expect, json.hexTo,
    json.do_stateEndValue, json.do_stateEndTop, json.pushParseState,
    json.scan_error, json.goto, json.setTop, json.popParseState.

Lemma string_step_dead st c : dead st = true -> dead (string_step st c) = true.
Proof.
  unfold string_step, json.scan_step.
  destruct st; try discriminate; intros _; unfold_steps; scanner_cbn;
    repeat match goal with
    | |- context [if ?b then _ else _] => destruct b
    end; reflexivity.
Qed.

Lemma string_run_dead st body :
  dead st = true -> dead (string_run_from st body) = true.
Proof.
  revert st. induction body as [ | c body IH ]; intros st H; [ exact H | ].
  cbn. apply IH. now apply string_step_dead.
Qed.

Lemma string_run_not_dead st body :
  dead st = true -> string_run_from st body <> json.stateInString.
Proof.
  intros H E. apply (string_run_dead st body) in H. rewrite E in H.
  discriminate.
Qed.

Lemma string_step_InString c :
  string_step json.stateInString c =
  if Byte.eqb c json.dquote then json.stateEndValue
  else if Byte.eqb c json.backslash then json.stateInStringEsc
  else if (json.code c <? 32)%N then json.stateError
  else json.stateInString.
Proof.
  unfold string_step, json.scan_step. cbn [json.step].
  destruct (Byte.eqb c json.dquote); [ reflexivity | ].
  destruct (Byte.eqb c json.backslash); [ reflexivity | ].
  destruct (json.code c <? 32)%N; reflexivity.
Qed.

Lemma string_step_Esc c :
  string_step json.stateInStringEsc c =
  if json.isChar "b" c || json.isChar "f" c || json.isChar "n" c
     || json.isChar "r" c || json.isChar "t" c || Byte.eqb c json.backslash
     || json.isChar "/" c || Byte.eqb c json.dquote
  then json.stateInString
  else if json.isChar "u" c then json.stateInStringEscU
  else json.stateError.
Proof.
  unfold string_step, json.scan_step. cbn [json.step].
  match goal with |- context [if ?b then _ else _] => destruct b end;
    [ reflexivity | ].
  destruct (json.isChar "u" c); reflexivity.
Qed.

Lemma string_step_hex st st' c :
  (st, st') = (json.stateInStringEscU, json.stateInStringEscU1) \/
  (st, st') = (json.stateInStringEscU1, json.stateInStringEscU12) \/
  (st, st') = (json.stateInStringEscU12, json.stateInStringEscU123) \/
  (st, st') = (json.stateInStringEscU123, json.stateInString) ->
  string_step st c = if json.isHex c then st' else json.stateError.
Proof.
  intros [H | [H | [H | H]]]; injection H as -> ->;
    unfold string_step, json.scan_step, json.hexTo; cbn [json.step];
    destruct (json.isHex c); reflexivity.
Qed.

Lemma isHex_hexval c : json.isHex c = true <-> json.hexval c <> None.
Proof.
  unfold json.isHex, json.hexval.
  destruct (json.between 48 57 (json.code c));
    [ cbn; split; [ discriminate | reflexivity ] | ].
  destruct (json.between 97 102 (json.code c));
    [ cbn; split; [ discriminate | reflexivity ] | ].
  destruct (json.between 65 70 (json.code c)); cbn;
    split; congruence.
Qed.

Lemma unquote_loop_skip k body :
  (k <= List.length body)%nat ->
  json.unquote_loop k body = json.unquote_loop 0 (skipn k body).
Proof.
  revert k. induction body as [ | c body IH ]; intros k Hk.
  - destruct k; [ reflexivity | cbn in Hk; lia ].
  - destruct k; [ reflexivity | ]. cbn in *. apply IH. lia.
Qed.

(** A byte outside ASCII is an ordinary byte of a string. *)
Lemma high_byte_step b :
  (128 <= json.code b)%N ->
  string_step json.stateInString b = json.stateInString.
Proof.
  intros H. rewrite string_step_InString.
  destruct (Byte.eqb b json.dquote) eqn:E1;
    [ apply Byte.byte_dec_bl in E1; subst b; vm_compute in H;
      now destruct H | ].
  destruct (Byte.eqb b json.backslash) eqn:E2;
    [ apply Byte.byte_dec_bl in E2; subst b; vm_compute in H;
      now destruct H | ].
  destruct (json.code b <? 32)%N eqn:E3; [ apply N.ltb_lt in E3; lia | ].
  reflexivity.
Qed.

Lemma high_bytes_run bs rest :
  Forall (fun b => (128 <= json.code b)%N) bs ->
  string_run_from json.stateInString (bs ++ rest)
  = string_run_from json.stateInString rest.
Proof.
  induction 1 as [ | b bs Hb _ IH ]; [ reflexivity | ].
  cbn. rewrite (high_byte_step b Hb). exact IH.
Qed.

Lemma between_high lo hi n :
  (128 <= lo)%N -> json.between lo hi n = true -> (128 <= n)%N.
Proof.
  unfold json.between. intros Hlo H. apply andb_true_iff in H as [H _].
  apply N.leb_le in H. lia.
Qed.

(** A well-formed multi-byte encoding is followed by its continuation
    bytes, none of which is ASCII. *)
Lemma utf8_size_high c rest n :
  (128 <= json.code c)%N ->
  json.utf8_size (c :: rest) = Some n ->
  exists k, n = S k /\ (k <= List.length rest)%nat /\
    Forall (fun b => (128 <= json.code b)%N) (firstn k rest).
Proof.
  intros Hc. unfold json.utf8_size.
  destruct (json.code c <? 128)%N eqn:E; [ apply N.ltb_lt in E; lia | ].
  destruct (json.between 194 223 (json.code c)).
  { destruct rest as [ | c1 rest ]; [ discriminate | ].
    destruct (json.isCont c1) eqn:E1; [ | discriminate ].
    intros H. injection H as <-. exists 1%nat. cbn.
    repeat split; [ lia | ]. constructor; [ | constructor ].
    now apply (between_high 128 191). }
  destruct (json.between 224 239 (json.code c)).
  { destruct rest as [ | c1 [ | c2 rest ] ]; try discriminate.
    match goal with |- context [json.between ?lo ?hi (json.code c1)] =>
      destruct (json.between lo hi (json.code c1)) eqn:E1 end;
      [ | discriminate ].
    destruct (json.isCont c2) eqn:E2; [ | discriminate ].
    intros H. injection H as <-. exists 2%nat. cbn.
    repeat split; [ lia | ]. repeat constructor.
    - destruct (json.code c =? 224)%N;
        [ now apply (between_high 160 _ _ ltac:(lia) E1)
        | now apply (between_high 128 _ _ ltac:(lia) E1) ].
    - now apply (between_high 128 191). }
  destruct (json.between 240 244 (json.code c)); [ | discriminate ].
  destruct rest as [ | c1 [ | c2 [ | c3 rest ] ] ]; try discriminate.
  match goal with |- context [json.between ?lo ?hi (json.code c1)] =>
    destruct (json.between lo hi (json.code c1)) eqn:E1 end;
    [ | discriminate ].
  destruct (json.isCont c2) eqn:E2; [ | discriminate ].
  destruct (json.isCont c3) eqn:E3; [ | discriminate ].
  intros H. injection H as <-. exists 3%nat. cbn.
  repeat split; [ lia | ]. repeat constructor.
  - destruct (json.code c =? 240)%N;
      [ now apply (between_high 144 _ _ ltac:(lia) E1)
      | now apply (between_high 128 _ _ ltac:(lia) E1) ].
  - now apply (between_high 128 191).
  - now apply (between_high 128 191).
Qed.

Lemma string_run_cons st c body :
  string_run_from st (c :: body) = string_run_from (string_step st c) body.
Proof. reflexivity. Qed.

(** A simple escape is read as two bytes. *)
Lemma unquote_at_simple_escape e rest :
  string_step json.stateInStringEsc e = json.stateInString ->
  exists out, json.unquote_at (json.backslash :: e :: rest) = Some (out, 2%nat).
Proof.
  rewrite string_step_Esc. unfold json.unquote_at.
  change (Byte.eqb json.backslash json.backslash) with true. cbv iota.
  destruct (Byte.eqb e json.dquote) eqn:Eq; [ intros _; cbn; eauto | ].
  destruct (Byte.eqb e json.backslash) eqn:Eb; [ intros _; cbn; eauto | ].
  destruct (json.isChar "/" e) eqn:Es; [ intros _; cbn; eauto | ].
  destruct (json.isChar "'" e) eqn:Ea; [ intros _; cbn; eauto | ].
  cbn [orb].
  destruct (json.isChar "b" e); [ intros _; eauto | ].
  destruct (json.isChar "f" e); [ intros _; eauto | ].
  destruct (json.isChar "n" e); [ intros _; eauto | ].
  destruct (json.isChar "r" e); [ intros _; eauto | ].
  destruct (json.isChar "t" e); [ intros _; eauto | ].
  cbn [orb]. destruct (json.isChar "u" e); intros H; discriminate H.
Qed.

(** After [\u] the scanner asks for four hexadecimal digits. *)
Lemma string_run_EscU body :
  string_run_from json.stateInStringEscU body = json.stateInString ->
  exists h1 h2 h3 h4 rest,
    body = h1 :: h2 :: h3 :: h4 :: rest /\
    json.isHex h1 = true /\ json.isHex h2 = true /\
    json.isHex h3 = true /\ json.isHex h4 = true /\
    string_run_from json.stateInString rest = json.stateInString.
Proof.
  intros H.
  destruct body as [ | h1 body ]; [ discriminate | ].
  rewrite string_run_cons, (string_step_hex _ json.stateInStringEscU1) in H
    by tauto.
  destruct (json.isHex h1) eqn:E1;
    [ | now apply string_run_not_dead in H ].
  destruct body as [ | h2 body ]; [ discriminate | ].
  rewrite string_run_cons, (string_step_hex _ json.stateInStringEscU12) in H
    by tauto.
  destruct (json.isHex h2) eqn:E2;
    [ | now apply string_run_not_dead in H ].
  destruct body as [ | h3 body ]; [ discriminate | ].
  rewrite string_run_cons, (string_step_hex _ json.stateInStringEscU123) in H
    by tauto.
  destruct (json.isHex h3) eqn:E3;
    [ | now apply string_run_not_dead in H ].
  destruct body as [ | h4 body ]; [ discriminate | ].
  rewrite string_run_cons, (string_step_hex _ json.stateInString) in H
    by tauto.
  destruct (json.isHex h4) eqn:E4;
    [ | now apply string_run_not_dead in H ].
  now exists h1, h2, h3, h4, body.
Qed.

Lemma getu4_escape h1 h2 h3 h4 rest :
  json.isHex h1 = true -> json.isHex h2 = true ->
  json.isHex h3 = true -> json.isHex h4 = true ->
  exists r,
    json.getu4 (json.backslash :: x75 :: h1 :: h2 :: h3 :: h4 :: rest)
    = Some r.
Proof.
  intros H1 H2 H3 H4. unfold json.getu4.
  change (Byte.eqb json.backslash json.backslash && json.isChar "u" x75)
    with true. cbv iota.
  apply isHex_hexval in H1, H2, H3, H4.
  destruct (json.hexval h1); [ | congruence ].
  destruct (json.hexval h2); [ | congruence ].
  destruct (json.hexval h3); [ | congruence ].
  destruct (json.hexval h4); [ | congruence ].
  eauto.
Qed.

(** What [getu4] accepts is an escape the scanner reads back to
    [stateInString]. *)
Lemma getu4_run s r :
  json.getu4 s = Some r ->
  exists rest, (6 <= List.length s)%nat /\ skipn 6 s = rest /\
    string_run_from json.stateInString s
    = string_run_from json.stateInString rest.
Proof.
  unfold json.getu4.
  destruct s as [ | b0 [ | b1 [ | h1 [ | h2 [ | h3 [ | h4 rest ] ] ] ] ] ];
    try discriminate.
  destruct (Byte.eqb b0 json.backslash) eqn:E0; [ | discriminate ].
  destruct (json.isChar "u" b1) eqn:E1; [ | discriminate ].
  cbn [andb].
  destruct (json.hexval h1) eqn:V1; [ | discriminate ].
  destruct (json.hexval h2) eqn:V2; [ | discriminate ].
  destruct (json.hexval h3) eqn:V3; [ | discriminate ].
  destruct (json.hexval h4) eqn:V4; [ | discriminate ].
  intros _. exists rest. split; [ cbn; lia | ]. split; [ reflexivity | ].
  apply Byte.byte_dec_bl in E0. apply isChar_true in E1.
  injection E1 as <-. subst b0.
  assert (X1 : json.isHex h1 = true) by (apply isHex_hexval; congruence).
  assert (X2 : json.isHex h2 = true) by (apply isHex_hexval; congruence).
  assert (X3 : json.isHex h3 = true) by (apply isHex_hexval; congruence).
  assert (X4 : json.isHex h4 = true) by (apply isHex_hexval; congruence).
  rewrite !string_run_cons.
  change (string_step json.stateInString json.backslash)
    with json.stateInStringEsc.
  change (string_step json.stateInStringEsc "u"%byte)
    with json.stateInStringEscU.
  rewrite (string_step_hex json.stateInStringEscU json.stateInStringEscU1),
    X1 by tauto.
  rewrite (string_step_hex json.stateInStringEscU1 json.stateInStringEscU12),
    X2 by tauto.
  rewrite (string_step_hex json.stateInStringEscU12
             json.stateInStringEscU123), X3 by tauto.
  rewrite (string_step_hex json.stateInStringEscU123 json.stateInString),
    X4 by tauto.
  reflexivity.
Qed.

Lemma string_step_Esc_u e :
  string_step json.stateInStringEsc e = json.stateInStringEscU -> e = x75.
Proof.
  rewrite string_step_Esc.
  match goal with |- context [if ?b then _ else _] => destruct b end;
    [ discriminate | ].
  destruct (json.isChar "u" e) eqn:E; [ | discriminate ].
  intros _. apply isChar_true in E. now injection E as <-.
Qed.

(** A [\uXXXX] escape is read as six bytes, or as twelve when it is the
    first half of a surrogate pair. *)
Lemma unquote_at_u_escape h1 h2 h3 h4 rest :
  json.isHex h1 = true -> json.isHex h2 = true ->
  json.isHex h3 = true -> json.isHex h4 = true ->
  exists out,
    json.unquote_at (json.backslash :: x75 :: h1 :: h2 :: h3 :: h4 :: rest)
      = Some (out, 6%nat) \/
    (json.unquote_at (json.backslash :: x75 :: h1 :: h2 :: h3 :: h4 :: rest)
      = Some (out, 12%nat) /\ exists r2, json.getu4 rest = Some r2).
Proof.
  intros H1 H2 H3 H4.
  destruct (getu4_escape h1 h2 h3 h4 rest H1 H2 H3 H4) as [r Hr].
  unfold json.unquote_at.
  change (Byte.eqb json.backslash json.backslash) with true. cbv iota.
  change (Byte.eqb x75 json.dquote || Byte.eqb x75 json.backslash
          || json.isChar "/" x75 || json.isChar "'" x75) with false.
  change (json.isChar "b" x75) with false.
  change (json.isChar "f" x75) with false.
  change (json.isChar "n" x75) with false.
  change (json.isChar "r" x75) with false.
  change (json.isChar "t" x75) with false.
  change (json.isChar "u" x75) with true. cbv iota.
  rewrite Hr.
  destruct (json.IsSurrogate r); [ | eauto ].
  cbn [skipn].
  destruct (json.getu4 rest) as [ r2 | ] eqn:E2.
  - destruct (negb (json.utf16_DecodeRune r (Some r2) =? json.RuneError)%N);
      eauto.
  - cbn. eauto.
Qed.

(** Every body the scanner reads from [stateInString] back to
    [stateInString] is unquoted without failure. *)
Lemma string_run_unquote (n : nat) :
  forall body, (List.length body <= n)%nat ->
  string_run body = json.stateInString ->
  exists out, json.unquote_loop 0 body = Some out.
Proof.
  unfold string_run.
  induction n as [ | n IH ]; intros body Hlen Hrun.
  { destruct body; [ cbn; eauto | cbn in Hlen; lia ]. }
  destruct body as [ | c rest ]; [ cbn; eauto | ].
  cbn in Hlen. rewrite string_run_cons, string_step_InString in Hrun.
  cbn [json.unquote_loop].
  destruct (Byte.eqb c json.dquote) eqn:Eq;
    [ now apply string_run_not_dead in Hrun | ].
  destruct (Byte.eqb c json.backslash) eqn:Eb.
  - (* an escape *)
    apply Byte.byte_dec_bl in Eb. subst c.
    destruct rest as [ | e rest ]; [ discriminate | ].
    rewrite string_run_cons in Hrun.
    destruct (string_step json.stateInStringEsc e) eqn:Ee;
      try (now apply string_run_not_dead in Hrun);
      try (rewrite string_step_Esc in Ee;
           repeat match type of Ee with
                  | (if ?b then _ else _) = _ => destruct b
                  end; discriminate Ee).
    + (* a simple escape *)
      destruct (unquote_at_simple_escape e rest Ee) as [out ->].
      cbn in Hlen |- *.
      destruct (IH rest ltac:(lia) Hrun) as [out' ->]. cbn. eauto.
    + (* \uXXXX *)
      apply string_step_Esc_u in Ee. subst e.
      destruct (string_run_EscU rest Hrun)
        as (h1 & h2 & h3 & h4 & r5 & -> & H1 & H2 & H3 & H4 & Hrun5).
      cbn in Hlen.
      destruct (unquote_at_u_escape h1 h2 h3 h4 r5 H1 H2 H3 H4)
        as [out [-> | [-> [r2 Hr2]]]].
      * cbn. destruct (IH r5 ltac:(lia) Hrun5) as [out' ->]. cbn. eauto.
      * destruct (getu4_run r5 r2 Hr2) as (r6 & Hl6 & Hs6 & Hrun6).
        cbn [Nat.pred json.unquote_loop].
        rewrite (unquote_loop_skip 6 r5 Hl6), Hs6.
        assert (Hlen6 : (List.length r6 <= n)%nat).
        { subst r6. rewrite length_skipn. lia. }
        rewrite Hrun6 in Hrun5.
        destruct (IH r6 Hlen6 Hrun5) as [out' ->]. cbn. eauto.
  - (* a plain byte *)
    destruct (json.code c <? 32)%N eqn:Ec;
      [ now apply string_run_not_dead in Hrun | ].
    unfold json.unquote_at. rewrite Eb, Eq, Ec. cbn [orb].
    destruct (json.code c <? 128)%N eqn:Ea.
    + cbn. destruct (IH rest ltac:(lia) Hrun) as [out' ->]. cbn. eauto.
    + apply N.ltb_ge in Ea.
      destruct (json.utf8_size (c :: rest)) as [ m | ] eqn:Eu.
      * destruct (utf8_size_high c rest m Ea Eu) as (k & -> & Hk & Hhigh).
        cbn [Nat.pred]. rewrite (unquote_loop_skip k rest Hk).
        rewrite <- (firstn_skipn k rest), high_bytes_run in Hrun
          by assumption.
        assert (Hlenk : (List.length (skipn k rest) <= n)%nat)
          by (rewrite length_skipn; lia).
        destruct (IH _ Hlenk Hrun) as [out' ->]. cbn. eauto.
      * cbn. destruct (IH rest ltac:(lia) Hrun) as [out' ->]. cbn. eauto.
Qed.

Lemma closed_string_unquote (lit : list byte) :
  closed_string lit -> is_some (json.unquoteBytes lit) = true.
Proof.
  intros (body & -> & Hrun).
  destruct (string_run_unquote _ body (le_n _) Hrun) as [out Hout].
  unfold json.unquoteBytes.
  change (Byte.eqb json.dquote json.dquote) with true.
  rewrite removelast_last.
  assert (Hlast : last (json.dquote :: body ++ [json.dquote]) x00
                  = json.dquote)
    by (rewrite app_comm_cons; apply last_last).
  rewrite Hlast.
  change (Byte.eqb json.dquote json.dquote) with true.
  assert (Hlen : Nat.leb 2 (List.length (json.dquote :: body ++ [json.dquote]))
                 = true)
    by (apply Nat.leb_le; cbn; rewrite length_app; cbn; lia).
  rewrite Hlen, Hout. reflexivity.
Qed.

End Strings.

(** *** The strings of the decoded document *)

Section DocumentStrings.

Ltac keys_cbn :=
  cbn [json.scan json.step json.endTop json.parseState json.err fst snd
       begin_state value_done literal_state in_string is_key_top is_key
       tl forallb negb andb] in *.

Ltac closed_term t :=
  tryif (match t with context [?v] => is_var v end) then fail else idtac.

Ltac keys_split :=
  match goal with
  | |- context [if ?b then _ else _] =>
      closed_term b;
      let v := eval vm_compute in b in change b with v
  | |- context [if Byte.eqb ?c json.dquote then _ else _] =>
      let H := fresh "H" in
      destruct (Byte.eqb c json.dquote) eqn:H;
      [ apply Byte.byte_dec_bl in H; subst c | apply Byte.eqb_false in H ]
  | |- context [if json.isChar ?ch ?c then _ else _] =>
      let H := fresh "H" in
      destruct (json.isChar ch c) eqn:H;
      [ apply isChar_true in H; injection H as <- | ]
  | |- context [if ?b then _ else _] => destruct b eqn:?
  | |- context [match ?x with _ => _ end] => is_var x; destruct x
  end; keys_cbn.

Lemma scan_step_keys (s : json.scanner) (c : byte) :
  keys_ok s ->
  keys_ok (fst (json.scan_step s c)) /\
  literal_transition s c (snd (json.scan_step s c)) (fst (json.scan_step s c)).
Proof.
  destruct s as [st et ps er].
  unfold keys_ok, literal_transition, string_step, json.scan_step.
  keys_cbn. intros (Htl & Hbv & Herr).
  destruct st.
  all: unfold json.do_stateBeginValue, json.do_stateBeginString,
         json.do_state0, json.do_stateESign, json.expect, json.hexTo,
         json.do_stateEndValue, json.do_stateEndTop, json.pushParseState,
         json.scan_error, json.goto, json.setTop, json.popParseState;
       keys_cbn.
  all: repeat keys_split.
  all: try (apply andb_true_iff in Htl; destruct Htl as [Htl1 Htl2]).
  all: try solve [ repeat split; try (intros [?|?]); intros;
                   try discriminate; try congruence; auto;
                   try (right; repeat split; auto; congruence);
                   try (left; repeat split; auto; congruence) ].
  all: try rewrite Htl1, Htl2.
  all: try (exfalso; discriminate (Hbv (or_introl eq_refl))).
  all: try (exfalso; discriminate (Hbv (or_intror eq_refl))).
  all: try (assert (Hk : is_key_top ps = false) by (apply Hbv; auto);
            destruct ps as [ | [ | | ] ps' ]; keys_cbn; try discriminate Hk;
            try rewrite Htl).
  all: try solve [ repeat split; try (intros [?|?]); intros;
                   try discriminate; try congruence; auto ].
  all: try solve [ repeat split; try (intros [?|?]); intros;
                   try discriminate; try congruence; auto;
                   try (right; repeat split; auto; congruence);
                   try (left; repeat split; auto; congruence) ].
Qed.

Lemma literal_value_quote (body : list byte) :
  json.literal_value (json.dquote :: body)
  = json.JString (json.dquote :: body).
Proof. reflexivity. Qed.

Lemma literal_value_other (c0 : byte) (body : list byte) :
  c0 <> json.dquote ->
  strings_ok (json.literal_value (c0 :: body)) = true.
Proof.
  intros H. unfold json.literal_value.
  destruct (json.isChar "n" c0); [ reflexivity | ].
  destruct (json.isChar "t" c0); [ reflexivity | ].
  destruct (json.isChar "f" c0); [ reflexivity | ].
  destruct (Byte.eqb c0 json.dquote) eqn:E; [ | reflexivity ].
  apply Byte.byte_dec_bl in E. contradiction.
Qed.

Lemma strings_ok_array (l : list json.value) :
  strings_ok (json.JArray l) = forallb strings_ok l.
Proof.
  induction l as [ | x l IH ]; [ reflexivity | ].
  cbn in *. now rewrite IH.
Qed.

Lemma strings_ok_object (m : list (list byte * json.value)) :
  strings_ok (json.JObject m) = forallb member_ok m.
Proof.
  induction m as [ | [k x] m IH ]; [ reflexivity | ].
  cbn in *. unfold member_ok at 1. cbn. now rewrite IH.
Qed.

Lemma string_run_snoc (body : list byte) (c : byte) :
  string_run (body ++ [c]) = string_step (string_run body) c.
Proof.
  unfold string_run, string_run_from. now rewrite fold_left_app.
Qed.

Lemma strings_inv_step (d : json.decodeState) (c : byte) :
  decoder_inv d -> keys_ok (json.scan d) -> strings_inv d ->
  strings_inv (json.decode_step d c).
Proof.
  destruct d as [s l cu sk]. unfold decoder_inv, step_ok, strings_inv.
  cbn [json.scan json.lit json.cur json.stack].
  intros [HA HB] Hkeys Hs.
  assert (Herr : json.step s = json.stateError \/
                 json.step s <> json.stateError)
    by (destruct (json.step s); (now left) || (right; discriminate)).
  destruct Herr as [Herr | Herr].
  { unfold json.decode_step. cbn [json.scan json.lit json.cur json.stack].
    assert (E : json.scan_step s c = (s, json.scanError))
      by (unfold json.scan_step; now rewrite Herr).
    rewrite E. cbn. intros H. contradiction. }
  destruct (HB Herr) as (Hfm & Hok & Hlit & Hend).
  destruct (Hs Herr) as (Hcur & Hframes & Hl & Hkey).
  pose proof (scan_step_transition s c Hok) as T.
  destruct (scan_step_keys s c Hkeys) as [Hkeys' L].
  unfold json.decode_step. cbn [json.scan json.lit json.cur json.stack].
  set (cur1 := match l with
               | Some l0 => Some (json.literal_value (rev l0))
               | None => cu
               end).
  assert (Fa : in_string (json.step s) = false ->
               match cur1 with
               | Some v => strings_ok v = true
               | None => True
               end).
  { intros Hin. subst cur1. destruct l as [ l | ]; [ | exact Hcur ].
    destruct Hl as (_ & c0 & body & Hrev & [[-> Hq] | (Hq & _)]).
    - destruct Hq as [[Hq _] | [_ Hq]]; [ congruence | ].
      rewrite Hrev in *. rewrite literal_value_quote.
      now apply closed_string_unquote.
    - rewrite Hrev. now apply literal_value_other. }
  assert (Fb : is_key_top (json.parseState s) = true ->
               value_done (json.step s) = true ->
               exists k, cur1 = Some (json.JString k)).
  { intros Hk Hv. subst cur1. destruct l as [ l | ].
    - destruct Hl as (_ & c0 & body & Hrev & [[-> Hq] | (_ & _ & Hq)]);
        [ | congruence ].
      rewrite Hrev, literal_value_quote. eauto.
    - apply Hkey; [ assumption | | reflexivity ].
      destruct (json.step s); try discriminate Hv; try reflexivity;
        exfalso; now apply Hlit. }
  clearbody cur1.
  destruct (json.scan_step s c) as [[st' et' ps' er'] op].
  destruct s as [st et ps er].
  unfold transition, literal_transition, same_nesting, popped, lit_inv,
    keys_ok in *.
  cbn [fst snd json.step json.endTop json.parseState json.err] in *.
  destruct op; cbn [json.scan json.lit json.cur json.stack json.build
                    json.step json.endTop json.parseState json.err];
    intros Hne.
  - (* scanContinue *)
    destruct T as ((-> & ->) & Hls & Hst').
    repeat split; try assumption.
    + destruct l as [ l | ]; [ | exfalso; now apply Hlit ].
      cbn [option_map]. split; [ assumption | ].
      destruct Hl as (_ & c0 & body & Hrev & Hq).
      exists c0, (body ++ [c])%list. split; [ cbn; now rewrite Hrev | ].
      destruct Hq as [[Hc0 [[Hin Hrun] | [HstE _]]] | (Hq & Hin & Hk)].
      * left. split; [ assumption | ]. rewrite Hin in L.
        destruct L as [Hst1 [Hin' | (HstI & Hc & HstE')]].
        -- left. split; [ assumption | ].
           now rewrite string_run_snoc, Hrun.
        -- right. split; [ assumption | ].
           exists body. cbn. rewrite Hrev, Hc0, Hc.
           split; [ reflexivity | ]. now rewrite Hrun.
      * rewrite HstE in Hls. discriminate Hls.
      * right. rewrite Hin in L. repeat split; assumption.
    + intros _ _ Hnone. destruct l; [ discriminate Hnone | ].
      exfalso. now apply Hlit.
  - (* scanBeginLiteral *)
    destruct T as ((-> & ->) & Hb & Hst').
    repeat split; try assumption; try discriminate.
    + now left.
    + exists c, []. split; [ reflexivity | ].
      destruct L as [[-> ->] | (Hc & Hin & Hk)].
      * left. split; [ reflexivity | ]. left. split; reflexivity.
      * right. repeat split; assumption.
  - (* scanBeginObject *)
    destruct T as (-> & -> & Hb & ->).
    repeat split; try assumption; try discriminate.
  - (* scanObjectKey *)
    destruct T as (r & -> & -> & -> & Hv & ->).
    destruct (Fb eq_refl Hv) as [k ->].
    assert (Hin : in_string st = false)
      by (destruct st; try discriminate Hv; reflexivity).
    specialize (Fa Hin). cbn in Fa.
    destruct sk as [ | [ es | ms [ k0 | ] ] sk ]; cbn in Hfm;
      try (exfalso; tauto).
    cbn in Hframes |- *. rewrite Fa.
    repeat split; try discriminate.
    now rewrite andb_true_r in *.
  - (* scanObjectValue *)
    destruct T as (r & -> & -> & -> & Hv & ->).
    assert (Hin : in_string st = false)
      by (destruct st; try discriminate Hv; reflexivity).
    specialize (Fa Hin).
    destruct sk as [ | [ es | ms [ k0 | ] ] sk ]; cbn in Hfm;
      try (exfalso; tauto).
    destruct cur1 as [ v | ]; cbn in Hframes |- *.
    + apply andb_true_iff in Hframes as [Hf Hsk].
      apply andb_true_iff in Hf as [Hms Hk0].
      rewrite forallb_app, Hms, Hsk. cbn. unfold member_ok. cbn.
      rewrite Hk0, Fa. repeat split; discriminate.
    + repeat split; try assumption; discriminate.
  - (* scanEndObject *)
    destruct T as (k & r & -> & (-> & Hpop) & Hk).
    destruct sk as [ | f sk ]; [ contradiction | ].
    destruct Hfm as [Hf Hfm].
    destruct f as [ es | ms ko ];
      [ exfalso; destruct Hk as [[-> _] | [-> _]]; exact Hf | ].
    cbn in Hframes. apply andb_true_iff in Hframes as [Hfr Hsk].
    apply andb_true_iff in Hfr as [Hms Hko].
    assert (Hcur' : exists v, json.build json.scanEndObject c cur1
                                (json.FObject ms ko :: sk)
                              = (None, Some v, sk) /\
                              strings_ok v = true).
    { destruct Hk as [[-> Hv] | [-> Hst]].
      - assert (Hin : in_string st = false)
          by (destruct st; try discriminate Hv; reflexivity).
        specialize (Fa Hin).
        destruct ko as [ k0 | ]; [ | contradiction ].
        destruct cur1 as [ v | ]; cbn; eexists; (split; [ reflexivity | ]);
          rewrite strings_ok_object; [ | assumption ].
        rewrite forallb_app, Hms. cbn. unfold member_ok. cbn.
        now rewrite Hko, Fa.
      - destruct ko as [ k0 | ]; [ contradiction | ].
        cbn. eexists. split; [ reflexivity | ].
        now rewrite strings_ok_object. }
    destruct Hcur' as (v & Hb & Hv). cbn in Hb. rewrite Hb. cbn.
    repeat split; try assumption.
    destruct Hkeys as (Htl & _). cbn in Htl. intros Hkt.
    destruct r as [ | [ | | ] r ]; cbn in Hkt, Htl; discriminate.
  - (* scanBeginArray *)
    destruct T as (-> & -> & Hb & ->).
    repeat split; try assumption; try discriminate.
  - (* scanArrayValue *)
    destruct T as (r & -> & (-> & ->) & Hv & ->).
    assert (Hin : in_string st = false)
      by (destruct st; try discriminate Hv; reflexivity).
    specialize (Fa Hin).
    destruct sk as [ | [ es | ms ko ] sk ]; cbn in Hfm;
      try (exfalso; tauto); try (exfalso; destruct ko; tauto).
    destruct cur1 as [ v | ]; cbn in Hframes |- *.
    + apply andb_true_iff in Hframes as [Hes Hsk].
      rewrite forallb_app, Hes, Hsk. cbn. rewrite Fa.
      repeat split; discriminate.
    + repeat split; try assumption; discriminate.
  - (* scanEndArray *)
    destruct T as (r & -> & (-> & Hpop) & Hk).
    destruct sk as [ | f sk ]; [ contradiction | ].
    destruct Hfm as [Hf Hfm].
    destruct f as [ es | ms ko ]; [ | exfalso; destruct ko; exact Hf ].
    cbn in Hframes. apply andb_true_iff in Hframes as [Hes Hsk].
    assert (Hcur' : exists v, json.build json.scanEndArray c cur1
                                (json.FArray es :: sk)
                              = (None, Some v, sk) /\
                              strings_ok v = true).
    { destruct cur1 as [ v | ]; cbn; eexists; (split; [ reflexivity | ]);
        rewrite strings_ok_array; [ | assumption ].
      rewrite forallb_app, Hes. cbn. rewrite andb_true_r.
      apply Fa. destruct Hk as [Hv | ->]; [ | reflexivity ].
      destruct st; try discriminate Hv; reflexivity. }
    destruct Hcur' as (v & Hb & Hv). cbn in Hb. rewrite Hb. cbn.
    repeat split; try assumption.
    destruct Hkeys as (Htl & _). cbn in Htl. intros Hkt.
    destruct r as [ | [ | | ] r ]; cbn in Hkt, Htl; discriminate.
  - (* scanSkipSpace *)
    destruct T as ((-> & ->) & Hst').
    assert (Hin : in_string st = false)
      by (destruct Hst' as [[_ H] | [_ H]]; destruct st;
          try discriminate H; reflexivity).
    specialize (Fa Hin). cbn.
    repeat split; try assumption.
    intros Hkt HstE _. apply Fb; [ assumption | ].
    destruct Hst' as [[-> Hb] | [_ Hv]]; [ | assumption ].
    rewrite HstE in Hb. discriminate Hb.
  - (* scanEnd *)
    destruct T as (-> & Hst' & Hst).
    assert (Hin : in_string st = false)
      by (destruct Hst as [[-> _] | [H _]]; [ reflexivity | ];
          destruct st; try discriminate H; reflexivity).
    specialize (Fa Hin). cbn.
    repeat split; try assumption.
    intros _ HstE. destruct Hst' as [-> | ->]; [ discriminate | ].
    contradiction.
  - (* scanError *)
    destruct T as (-> & _). cbn in Hne. contradiction.
Qed.

Lemma keys_ok_reset : keys_ok json.reset.
Proof. repeat split; cbn; intros; discriminate. Qed.

Lemma strings_inv_reset :
  strings_inv (json.mkDecodeState json.reset None None []).
Proof. intros _. cbn. repeat split. intros; discriminate. Qed.

(** The three invariants hold after every prefix of the input. *)
Lemma invariants_run (data : list byte) (d : json.decodeState) :
  decoder_inv d /\ keys_ok (json.scan d) /\ strings_inv d ->
  decoder_inv (fold_left json.decode_step data d) /\
  keys_ok (json.scan (fold_left json.decode_step data d)) /\
  strings_inv (fold_left json.decode_step data d).
Proof.
  revert d. induction data as [ | c data IH ]; intros d H; [ exact H | ].
  destruct H as (Hd & Hk & Hs). cbn. apply IH.
  split; [ | split ].
  - now apply decoder_inv_step.
  - rewrite scan_decode_step. now apply scan_step_keys.
  - now apply strings_inv_step.
Qed.

(** The space [eof] feeds to a scanner that has met no error takes it to
    [stateEndTop] if it ends the input. *)
Lemma eof_step_not_error (s : json.scanner) :
  json.step s <> json.stateError ->
  (json.endTop s = true -> json.step s = json.stateEndTop) ->
  json.endTop (fst (json.scan_step s x20)) = true ->
  json.step (fst (json.scan_step s x20)) <> json.stateError.
Proof.
  destruct s as [st et ps er]. unfold json.scan_step. keys_cbn.
  intros Hne Het.
  destruct st; try contradiction.
  all: unfold json.do_stateBeginValue, json.do_stateBeginString,
         json.do_state0, json.do_stateESign, json.expect, json.hexTo,
         json.do_stateEndValue, json.do_stateEndTop, json.pushParseState,
         json.scan_error, json.goto, json.setTop, json.popParseState;
       keys_cbn.
  all: repeat keys_split.
  all: try discriminate.
  all: intros E; try (specialize (Het E)); discriminate.
Qed.

(** A valid input decodes to a document all of whose string literals and
    keys are unquoted without failure: on a valid input the decoders below
    never meet the failures their definitions provide for. *)
Theorem decode_valid (data : list byte) :
  json.checkValid data = true ->
  exists v, json.decode data = Some v /\ strings_ok v = true.
Proof.
  intros Hv. unfold json.decode. fold (decode_run data).
  destruct (invariants_run data _
              (conj decoder_inv_reset (conj keys_ok_reset strings_inv_reset)))
    as (Hi & Hk & Hs).
  fold (decode_run data) in Hi, Hk, Hs.
  pose proof (checkValid_from_eof data
                (json.mkDecodeState json.reset None None []) Hv) as He.
  fold (decode_run data) in He.
  pose proof (decoder_inv_step _ x20 Hi) as [HA' _].
  pose proof (strings_inv_step _ x20 Hi Hk Hs) as Hs'.
  pose proof (scan_decode_step (decode_run data) x20) as Hsc.
  destruct Hi as [HA _]. destruct Hk as (_ & _ & Herr).
  unfold json.eof in He.
  destruct (json.err (json.scan (decode_run data))) eqn:Ee;
    [ congruence | ].
  assert (Hne : json.step (json.scan (decode_run data)) <> json.stateError)
    by (intros E; specialize (Herr E); congruence).
  assert (Htop : json.endTop (json.scan (decode_run data)) = true ->
                 json.step (json.scan (decode_run data)) = json.stateEndTop)
    by (intros E; destruct (HA E) as [[H | H] _]; [ exact H | contradiction ]).
  assert (Het : json.endTop
                  (json.scan (json.decode_step (decode_run data) x20))
                = true).
  { rewrite Hsc.
    destruct (json.endTop (json.scan (decode_run data))) eqn:E.
    - unfold json.scan_step. rewrite (Htop eq_refl). cbn. exact E.
    - destruct (json.endTop (fst (json.scan_step
                  (json.scan (decode_run data)) x20)));
        [ reflexivity | congruence ]. }
  destruct (HA' Het) as [_ Hc].
  assert (Hne' : json.step
                   (json.scan (json.decode_step (decode_run data) x20))
                 <> json.stateError).
  { rewrite Hsc. apply eof_step_not_error; try assumption.
    now rewrite <- Hsc. }
  destruct (Hs' Hne') as (Hcur & _).
  destruct (json.cur (json.decode_step (decode_run data) x20)) as [ v | ];
    [ now exists v | congruence ].
Qed.

End DocumentStrings.

(** *** The package's helpers *)

Section Helpers.

Lemma nonempty_true (x : string) : x <> "" -> nonempty x = true.
Proof.
  intros H. unfold nonempty. apply negb_true_iff. now apply String.eqb_neq.
Qed.

Lemma nonempty_false (x : string) : nonempty x = false <-> x = "".
Proof.
  unfold nonempty. rewrite negb_false_iff. apply String.eqb_eq.
Qed.

(** The type switch of [UnmarshalJSON] takes the map case exactly when the
    input is valid and its document is an object. *)
Lemma interface_map_iff (data : list byte) m :
  fst (json.Unmarshal_interface data) = json.iface_map m <->
  json.checkValid data = true /\ json.decode data = Some (json.JObject m).
Proof.
  unfold json.Unmarshal_interface.
  destruct (json.checkValid data);
    [ | simpl; split; [ discriminate | intros [H _]; discriminate ] ].
  destruct (json.decode data) as [v | ]; simpl.
  - destruct v; simpl;
      try destruct (json.float64_overflows lit);
      try destruct (json.unquoteBytes lit);
      split; try discriminate; try (intros [_ H]; discriminate).
    + intros H. injection H as ->. now split.
    + intros [_ H]. now injection H as ->.
  - split; [ discriminate | intros [_ H]; discriminate ].
Qed.

Lemma interface_map_object (data : list byte) m :
  fst (json.Unmarshal_interface data) = json.iface_map m ->
  parses_as_object data.
Proof.
  intros H. apply interface_map_iff in H as [Hv Hd].
  split; [ assumption | now exists m ].
Qed.

(** Whatever the branch, the receiver leaves [UnmarshalJSON] with
    [Valid] set by one of the two assignments of the source. *)
Lemma UnmarshalJSON_shape (s : null.String) (data : list byte) :
  let '(s', err) := null.UnmarshalJSON s data in
  null.Valid s' = false \/
  null.Valid s' = null.is_nil err && nonempty (null.String_ s').
Proof.
  unfold null.UnmarshalJSON.
  destruct (fst (json.Unmarshal_interface data)); simpl; auto.
  destruct (json.Unmarshal_NullString data (null.NullString s)); simpl; auto.
Qed.

(** On a valid input the first [json.Unmarshal] stores the document it
    decoded, whose strings are all unquoted without failure. *)
Lemma Unmarshal_interface_valid (data : list byte) :
  json.checkValid data = true ->
  exists v, json.decode data = Some v /\ strings_ok v = true /\
    json.Unmarshal_interface data
      = (json.valueInterface v, json.convert_errors v).
Proof.
  intros Hv. destruct (decode_valid data Hv) as (v & Hd & Hok).
  exists v. repeat split; try assumption.
  unfold json.Unmarshal_interface. now rewrite Hv, Hd.
Qed.

(** The keys and the string members of the object of a valid input are
    unquoted without failure, so the decoder of [sql.NullString] never
    meets the failures its definition provides for. *)
Lemma members_unquoted (data : list byte) ms :
  json.checkValid data = true ->
  json.decode data = Some (json.JObject ms) ->
  Forall (fun kv =>
            json.unquoteBytes (fst kv) <> None /\
            match snd kv with
            | json.JString l => json.unquoteBytes l <> None
            | _ => True
            end) ms.
Proof.
  intros Hv Hd. destruct (decode_valid data Hv) as (v & Hd' & Hok).
  rewrite Hd in Hd'. injection Hd' as <-.
  rewrite strings_ok_object in Hok.
  apply Forall_forall. intros [k x] Hin.
  apply (proj1 (forallb_forall _ _) Hok) in Hin.
  unfold member_ok in Hin. cbn in Hin |- *.
  apply andb_true_iff in Hin as [Hk Hx]. split.
  - destruct (json.unquoteBytes k); [ discriminate | discriminate Hk ].
  - destruct x; try exact I. cbn in Hx.
    destruct (json.unquoteBytes lit); [ discriminate | discriminate Hx ].
Qed.


End Helpers.

(** C1. On a zero-valued receiver, [UnmarshalJSON] of the text ["hello"]
    gives Present("hello"), of the JSON empty string [""] gives Null, of
    [null] gives Null and of [42] gives Null; none of the four calls returns
    an error. *)
Theorem UnmarshalJSON_plain_inputs :
  null.UnmarshalJSON zero (text (quoted "hello"))
    = (null.NewString "hello" true, None) /\
  null.UnmarshalJSON zero (text (quoted ""))
    = (null.NewString "" false, None) /\
  null.UnmarshalJSON zero (text "null") = (null.NewString "" false, None) /\
  null.UnmarshalJSON zero (text "42") = (null.NewString "" false, None).
Proof.
  repeat split; vm_compute; reflexivity.
Qed.

(** C2. [UnmarshalJSON] returns the error [e] exactly when the input parses
    as a JSON object and the nested decode into the [sql.NullString] returns
    [e]; so it returns an error if and only if the input is an object whose
    structured decode fails, and no error for any other input. *)
Theorem UnmarshalJSON_error_iff (s : null.String) (data : list byte)
    (e : json.error) :
  snd (null.UnmarshalJSON s data) = Some e <->
  parses_as_object data /\
  snd (json.Unmarshal_NullString data (null.NullString s)) = Some e.
Proof.
  unfold null.UnmarshalJSON.
  destruct (fst (json.Unmarshal_interface data)) eqn:Hv; simpl.
  1-5: split; [ discriminate | ];
       intros [[Hc [ms Hd]] _];
       assert (Hm : fst (json.Unmarshal_interface data) = json.iface_map ms)
         by (apply interface_map_iff; now split);
       rewrite Hv in Hm; discriminate.
  apply interface_map_object in Hv.
  destruct (json.Unmarshal_NullString data (null.NullString s)) as [ns err].
  simpl. tauto.
Qed.

(** C3, as the source has it.  [StringFrom], [StringFromPtr],
    [UnmarshalJSON] and [UnmarshalText] produce a value whose [Valid] is
    false whenever its [String] is empty, for every argument and every
    receiver.  [NewString] stores its two arguments as they are, so its
    result satisfies the invariant exactly when the string is not empty or
    the flag is false. *)
Theorem normalising_operations :
  (forall x, normalised (null.StringFrom x)) /\
  (forall p, normalised (null.StringFromPtr p)) /\
  (forall s data, normalised (fst (null.UnmarshalJSON s data))) /\
  (forall s b, normalised (fst (null.UnmarshalText s b))) /\
  (forall x v, normalised (null.NewString x v) <-> (x <> "" \/ v = false)).
Proof.
  unfold normalised. repeat split.
  - intros x H. simpl in *. now apply nonempty_false.
  - intros [x | ] H; simpl in *; [ now apply nonempty_false | reflexivity ].
  - intros s data H.
    pose proof (UnmarshalJSON_shape s data) as Hs.
    destruct (null.UnmarshalJSON s data) as [s' err]. simpl in *.
    destruct Hs as [Hs | Hs]; [ assumption | ].
    rewrite Hs. apply nonempty_false in H. rewrite H. apply andb_false_r.
  - intros s b H. simpl in *. now apply nonempty_false.
  - intros H. simpl in H. destruct v; [ left | now right ].
    intros ->. now specialize (H eq_refl).
  - intros [Hx | ->] H; simpl in *; [ contradiction | reflexivity ].
Qed.

(** C3, as the specification states it, fails: the raw constructor called
    with the empty string and [true] yields an empty value that is valid. *)
Lemma NewString_empty_valid :
  null.String_ (null.NewString "" true) = "" /\
  null.Valid (null.NewString "" true) = true /\
  ~ normalised (null.NewString "" true).
Proof.
  repeat split. intros H. specialize (H eq_refl). discriminate.
Qed.

(** C4. Whatever the receiver holds, [UnmarshalJSON] of
    [{"String":"abc","Valid":true}] gives Present("abc") and no error, and
    of [{"String":"","Valid":true}] gives Null (an empty, invalid value) and
    no error: the final assignment overrides the nested [Valid]. *)
Theorem UnmarshalJSON_structured (s : null.String) :
  null.UnmarshalJSON s (structured (quoted "abc") "true")
    = (null.NewString "abc" true, None) /\
  null.UnmarshalJSON s (structured (quoted "") "true")
    = (null.NewString "" false, None).
Proof.
  destruct s as [[x v]]. split; vm_compute; reflexivity.
Qed.


(** C6. For an input that is not valid JSON, the first [json.Unmarshal]
    fails with a syntax error and leaves the interface nil; [UnmarshalJSON]
    drops that error, clears [Valid], keeps [String] and returns no error.
    The texts [{] and [not json] are such inputs. *)
Theorem UnmarshalJSON_invalid_input (s : null.String) (data : list byte) :
  json.checkValid data = false ->
  json.Unmarshal_interface data = (json.iface_nil, Some json.SyntaxError) /\
  null.UnmarshalJSON s data = (null.set_Valid s false, None) /\
  Null (fst (null.UnmarshalJSON s data)) /\
  json.checkValid (text "{") = false /\
  json.checkValid (text "not json") = false.
Proof.
  intros H.
  assert (Hi : json.Unmarshal_interface data
               = (json.iface_nil, Some json.SyntaxError))
    by (unfold json.Unmarshal_interface; now rewrite H).
  unfold null.UnmarshalJSON, Null. rewrite Hi. simpl.
  repeat split; vm_compute; reflexivity.
Qed.

Lemma UnmarshalJSON_invalid_input_witness :
  null.UnmarshalJSON (null.NewString "kept" true) (text "{")
    = (null.NewString "kept" false, None) /\
  null.UnmarshalJSON (null.NewString "kept" true) (text "not json")
    = (null.NewString "kept" false, None).
Proof.
  split.
  - exact (proj1 (proj2 (UnmarshalJSON_invalid_input
             (null.NewString "kept" true) (text "{") eq_refl))).
  - exact (proj1 (proj2 (UnmarshalJSON_invalid_input
             (null.NewString "kept" true) (text "not json") eq_refl))).
Defined.

(** C7. Text round trip.  For a valid value with a non-empty string,
    [MarshalText] followed by [UnmarshalText] on any receiver gives the
    value back, with no error on the way.  For a Null value [MarshalText]
    gives no bytes, and [UnmarshalText] of no bytes gives the Null value
    with the empty string. *)
Theorem text_round_trip (s r : null.String) :
  (null.Valid s = true -> null.String_ s <> "" ->
   snd (null.MarshalText s) = None /\
   null.UnmarshalText r (fst (null.MarshalText s)) = (s, None)) /\
  (null.Valid s = false ->
   null.MarshalText s = ([], None) /\
   null.UnmarshalText r [] = (null.NewString "" false, None) /\
   Null (fst (null.UnmarshalText r (fst (null.MarshalText s))))).
Proof.
  destruct s as [[x v]].
  unfold null.MarshalText, null.UnmarshalText, Null, null.set_Valid,
    null.set_String, null.String_, null.Valid.
  cbn [sql.String sql.Valid null.NullString]. split.
  - intros -> Hx. cbn [negb fst snd]. split; [ reflexivity | ].
    unfold bytes_of_string, string_of_bytes.
    rewrite string_of_list_byte_of_string.
    now rewrite (nonempty_true x Hx).
  - intros ->. cbn. repeat split.
Qed.

Lemma text_round_trip_witness :
  null.UnmarshalText zero (fst (null.MarshalText (null.StringFrom "abc")))
    = (null.StringFrom "abc", None) /\
  null.UnmarshalText (null.StringFrom "abc")
      (fst (null.MarshalText (null.NewString "lost" false)))
    = (null.NewString "" false, None).
Proof.
  split.
  - refine (proj2 (proj1 (text_round_trip (null.StringFrom "abc") zero)
                     eq_refl _)).
    discriminate.
  - exact (proj1 (proj2 (proj2 (text_round_trip (null.NewString "lost" false)
                     (null.StringFrom "abc")) eq_refl))).
Defined.

(** C8. [MarshalText] never returns an error; it returns no bytes when
    [Valid] is false and the bytes of [String] when [Valid] is true. *)
Theorem MarshalText_spec (s : null.String) :
  snd (null.MarshalText s) = None /\
  (null.Valid s = false -> null.MarshalText s = ([], None)) /\
  (null.Valid s = true ->
   null.MarshalText s = (bytes_of_string (null.String_ s), None)).
Proof.
  unfold null.MarshalText.
  destruct (null.Valid s); simpl; repeat split; intros; congruence.
Qed.

Lemma MarshalText_spec_witness :
  null.MarshalText (null.NewString "payload" false) = ([], None) /\
  null.MarshalText (null.NewString "hi" true) = (text "hi", None).
Proof.
  split.
  - exact (proj1 (proj2 (MarshalText_spec (null.NewString "payload" false)))
             eq_refl).
  - exact (proj2 (proj2 (MarshalText_spec (null.NewString "hi" true)))
             eq_refl).
Defined.

(** C9. [Ptr] of [StringFrom s] is the nil pointer when [s] is empty, and
    otherwise a pointer to [s]. *)
Theorem Ptr_StringFrom (s : string) :
  (s = "" -> null.Ptr (null.StringFrom s) = None) /\
  (s <> "" -> null.Ptr (null.StringFrom s) = Some s).
Proof.
  unfold null.Ptr, null.StringFrom. simpl. split.
  - intros ->. reflexivity.
  - intros H. now rewrite (nonempty_true s H).
Qed.

Lemma Ptr_StringFrom_witness :
  null.Ptr (null.StringFrom "") = None /\
  null.Ptr (null.StringFrom "go") = Some "go".
Proof.
  split.
  - exact (proj1 (Ptr_StringFrom "") eq_refl).
  - refine (proj2 (Ptr_StringFrom "go") _). discriminate.
Defined.

(** C10. [IsZero] is true exactly when [Valid] is false or [String] is
    empty; it is true for the value [NewString("", true)]. *)
Theorem IsZero_spec (s : null.String) :
  (null.IsZero s = true <-> null.Valid s = false \/ null.String_ s = "") /\
  null.IsZero (null.NewString "" true) = true.
Proof.
  split; [ | reflexivity ].
  unfold null.IsZero.
  rewrite orb_true_iff, negb_true_iff, String.eqb_eq. reflexivity.
Qed.

(** ** Further properties of the package *)

(** *** Constructors, pointers and text *)

Section TextAndPointers.

Lemma bytes_of_string_nil (x : string) : bytes_of_string x = [] <-> x = "".
Proof.
  split; [ | intros ->; reflexivity ].
  destruct x; [ reflexivity | discriminate ].
Qed.

End TextAndPointers.

(** X1. [Ptr] of [StringFromPtr p] is a pointer to the string [p] points
    to, except that nil and a pointer to the empty string both come back as
    nil. *)
Theorem Ptr_StringFromPtr (p : option string) :
  null.Ptr (null.StringFromPtr p)
  = match p with
    | Some x => if (x =? "")%string then None else Some x
    | None => None
    end.
Proof.
  destruct p as [ x | ]; [ | reflexivity ].
  unfold null.Ptr, null.StringFromPtr, null.Valid, null.String_, nonempty.
  cbn. now destruct (x =? "")%string.
Qed.

(** X2. [StringFromPtr] of [Ptr s] gives [s] back exactly when [s] is in
    the form the constructors produce, [Valid] being true if and only if
    [String] is not empty; it does so for every [StringFrom x]. *)
Theorem StringFromPtr_Ptr (s : null.String) :
  (null.StringFromPtr (null.Ptr s) = s <->
   null.Valid s = nonempty (null.String_ s)) /\
  (forall x, null.StringFromPtr (null.Ptr (null.StringFrom x))
             = null.StringFrom x).
Proof.
  split.
  - destruct s as [[x v]].
    unfold null.Ptr, null.StringFromPtr, null.Valid, null.String_,
      null.NewString. cbn.
    destruct v; cbn.
    + split; intros H; [ now injection H | now rewrite <- H ].
    + destruct (nonempty x) eqn:E.
      * split; [ | discriminate ]. intros H. injection H as <-.
        discriminate E.
      * apply nonempty_false in E. subst x. tauto.
  - intros x. unfold null.Ptr, null.StringFrom, null.StringFromPtr,
      null.Valid, null.String_, null.NewString. cbn.
    destruct (nonempty x) eqn:E; cbn; [ now rewrite E | ].
    apply nonempty_false in E. now subst x.
Qed.

(** X3. Decoding a text and encoding the result gives the text back: for
    all bytes [b] and every receiver, [MarshalText] of the value
    [UnmarshalText] produced from [b] returns [b] and no error. *)
Theorem MarshalText_UnmarshalText (r : null.String) (b : list byte) :
  null.MarshalText (fst (null.UnmarshalText r b)) = (b, None).
Proof.
  unfold null.UnmarshalText, null.MarshalText, null.set_Valid,
    null.set_String, null.Valid, null.String_. cbn [fst sql.Valid sql.String
    null.NullString].
  destruct (nonempty (string_of_bytes b)) eqn:E; cbn [negb].
  - unfold bytes_of_string, string_of_bytes.
    now rewrite list_byte_of_string_of_list_byte.
  - apply nonempty_false in E.
    assert (H : bytes_of_string (string_of_bytes b) = [])
      by now apply bytes_of_string_nil.
    unfold bytes_of_string, string_of_bytes in H.
    rewrite list_byte_of_string_of_list_byte in H. now subst b.
Qed.

(** X4. [MarshalText] returns no bytes exactly for the values [IsZero]
    reports: a null value and a valid empty string encode alike. *)
Theorem MarshalText_empty_iff_IsZero (s : null.String) :
  fst (null.MarshalText s) = [] <-> null.IsZero s = true.
Proof.
  unfold null.MarshalText, null.IsZero.
  destruct (null.Valid s); cbn; [ | tauto ].
  rewrite bytes_of_string_nil. symmetry. apply String.eqb_eq.
Qed.

(** X5. [IsZero] is true exactly when [Ptr] is nil or the value is the
    valid empty string [NewString("", true)], the one zero value [Ptr]
    still points into. *)
Theorem IsZero_iff_Ptr (s : null.String) :
  null.IsZero s = true <->
  null.Ptr s = None \/ s = null.NewString "" true.
Proof.
  destruct s as [[x v]]. unfold null.IsZero, null.Ptr, null.NewString,
    null.Valid, null.String_. cbn.
  destruct v; cbn.
  - rewrite String.eqb_eq. split.
    + intros ->. now right.
    + intros [H | H]; [ discriminate | now injection H ].
  - split; [ now left | reflexivity ].
Qed.

(** *** More on [UnmarshalJSON] *)

Section NestedDecode.

Lemma store_String_effect (v : json.value) :
  exists (u : option string) (e : option json.error), forall ns,
    json.store_String v ns
    = (sql.mkNullString
         (match u with Some y => y | None => sql.String ns end)
         (sql.Valid ns), e).
Proof.
  destruct v as [ | b | lit | lit | es | ms ]; cbn;
    try (exists None; eexists; intros [x b0]; reflexivity).
  destruct (json.unquoteBytes lit) as [ s | ].
  - exists (Some (string_of_bytes s)), None. reflexivity.
  - exists None, None. intros [x b0]. reflexivity.
Qed.

Lemma store_Valid_effect (v : json.value) :
  exists (u : option bool) (e : option json.error), forall ns,
    json.store_Valid v ns
    = (sql.mkNullString (sql.String ns)
         (match u with Some y => y | None => sql.Valid ns end), e).
Proof.
  destruct v as [ | b | lit | lit | es | ms ]; cbn;
    try (exists None; eexists; intros [x b0]; reflexivity).
  exists (Some b), None. reflexivity.
Qed.

(** The error of the nested decode depends on the members alone. *)
Lemma object_NullString_error ms ns ns' :
  snd (json.object_NullString ms ns) = snd (json.object_NullString ms ns').
Proof.
  revert ns ns'. induction ms as [ | [k v] ms IH ]; intros ns ns';
    [ reflexivity | ].
  cbn [json.object_NullString].
  destruct (store_String_effect v) as (u1 & e1 & H1).
  destruct (store_Valid_effect v) as (u2 & e2 & H2).
  destruct (json.field_of k) as [ [ | ] | ];
    rewrite ?H1, ?H2;
    match goal with
    | |- snd (let '(_, _) := json.object_NullString ms ?a in _)
         = snd (let '(_, _) := json.object_NullString ms ?b in _) =>
        specialize (IH a b);
        destruct (json.object_NullString ms a),
                 (json.object_NullString ms b); cbn in *; now rewrite IH
    end.
Qed.

Lemma last_string_cons kv ms x :
  last_string (kv :: ms) x
  = last_string ms (match member_string kv with Some y => y | None => x end).
Proof. reflexivity. Qed.

(** What one member does to the field [String]. *)
Lemma member_String k v ns :
  sql.String
    (fst match json.field_of k with
         | Some json.field_String => json.store_String v ns
         | Some json.field_Valid => json.store_Valid v ns
         | None => (ns, None)
         end)
  = match member_string (k, v) with
    | Some y => y
    | None => sql.String ns
    end.
Proof.
  unfold member_string. cbn [fst snd].
  destruct (json.field_of k) as [ [ | ] | ];
    destruct v as [ | b | lit | lit | es | ms ]; cbn; try reflexivity.
  destruct (json.unquoteBytes lit); reflexivity.
Qed.

(** The field [String] after the nested decode: the last member that
    stores into it wins, and [Valid] plays no part. *)
Lemma object_NullString_String ms ns :
  sql.String (fst (json.object_NullString ms ns))
  = last_string ms (sql.String ns).
Proof.
  revert ns. induction ms as [ | [k v] ms IH ]; intros ns; [ reflexivity | ].
  rewrite last_string_cons, <- member_String.
  cbn [json.object_NullString].
  match goal with
  | |- context [let '(_, _) := ?m in _] => destruct m as [ns1 e1]
  end.
  specialize (IH ns1). destruct (json.object_NullString ms ns1).
  exact IH.
Qed.

Lemma last_string_const_or_id ms :
  (forall x, last_string ms x = x) \/
  (exists y, forall x, last_string ms x = y).
Proof.
  induction ms as [ | kv ms IH ]; [ now left | ].
  unfold last_string in *. cbn [fold_left].
  destruct IH as [IH | [y IH]].
  - destruct (member_string kv) as [ y | ].
    + right. exists y. intros x. apply IH.
    + left. intros x. apply IH.
  - right. exists y. intros x. apply IH.
Qed.

Lemma last_string_idem ms x :
  last_string ms (last_string ms x) = last_string ms x.
Proof.
  destruct (last_string_const_or_id ms) as [H | [y H]];
    now rewrite !H.
Qed.

(** What the nested decode does to the receiver: its error does not depend
    on the receiver, and the new [String] is an idempotent function of the
    old [String] alone. *)
Lemma Unmarshal_NullString_effect (data : list byte) :
  exists (f : string -> string) (e : option json.error),
    (forall x, f (f x) = f x) /\
    forall ns,
      sql.String (fst (json.Unmarshal_NullString data ns)) = f (sql.String ns)
      /\ snd (json.Unmarshal_NullString data ns) = e.
Proof.
  unfold json.Unmarshal_NullString.
  destruct (json.checkValid data);
    [ | exists (fun x => x); eexists; split; [ reflexivity | ];
        intros ns; split; cbn; reflexivity ].
  destruct (json.decode data) as [ v | ];
    [ | exists (fun x => x); eexists; split; [ reflexivity | ];
        intros ns; split; cbn; reflexivity ].
  destruct v as [ | b | lit | lit | es | ms ];
    try (exists (fun x => x); eexists; split; [ reflexivity | ];
         intros ns; split; cbn; reflexivity).
  exists (last_string ms),
    (snd (json.object_NullString ms (sql.mkNullString "" false))).
  split; [ apply last_string_idem | ].
  intros ns. split;
    [ apply object_NullString_String | apply object_NullString_error ].
Qed.

End NestedDecode.

(** X6. [UnmarshalJSON] never returns an error together with a valid
    value: whenever it returns an error the receiver is left null, even
    though its [String] may already have been replaced. *)
Theorem UnmarshalJSON_error_Null (s : null.String) (data : list byte)
    (e : json.error) :
  snd (null.UnmarshalJSON s data) = Some e ->
  null.Valid (fst (null.UnmarshalJSON s data)) = false.
Proof.
  intros He. pose proof (UnmarshalJSON_shape s data) as H.
  destruct (null.UnmarshalJSON s data) as [s' err]. cbn in *.
  subst err. destruct H as [H | H]; [ exact H | ]. now rewrite H.
Qed.

Lemma UnmarshalJSON_error_Null_witness :
  null.UnmarshalJSON (null.NewString "old" true)
    (structured (quoted "new") (quoted "yes"))
  = (null.NewString "new" false,
     Some (json.UnmarshalTypeError "string" "Valid")) /\
  null.Valid (fst (null.UnmarshalJSON (null.NewString "old" true)
                     (structured (quoted "new") (quoted "yes")))) = false.
Proof.
  split; [ vm_compute; reflexivity | ].
  apply (UnmarshalJSON_error_Null (null.NewString "old" true)
           (structured (quoted "new") (quoted "yes"))
           (json.UnmarshalTypeError "string" "Valid")).
  vm_compute. reflexivity.
Defined.

(** X7. The [Valid] flag the receiver holds before the call never
    influences [UnmarshalJSON]: the value left in the receiver and the
    error are the same for both flags. *)
Theorem UnmarshalJSON_ignores_Valid (s : null.String) (b : bool)
    (data : list byte) :
  null.UnmarshalJSON (null.set_Valid s b) data = null.UnmarshalJSON s data.
Proof.
  destruct s as [[x v]].
  unfold null.UnmarshalJSON, null.after_switch, null.set_Valid,
    null.set_String, null.String_, null.Valid.
  cbn [null.NullString sql.String sql.Valid].
  destruct (fst (json.Unmarshal_interface data)); try reflexivity.
  destruct (Unmarshal_NullString_effect data) as (f & e & _ & H).
  pose proof (H (sql.mkNullString x b)) as [H1 H2].
  pose proof (H (sql.mkNullString x v)) as [H3 H4].
  destruct (json.Unmarshal_NullString data (sql.mkNullString x b))
    as [[x1 v1] e1].
  destruct (json.Unmarshal_NullString data (sql.mkNullString x v))
    as [[x2 v2] e2].
  cbn in *. now subst.
Qed.

(** X8. A document the type switch has no case for (a boolean, an array, a
    number that fits a float64) does not make the receiver null by itself:
    [String] is kept, [Valid] becomes [String != ""], and no error is
    returned.  A receiver that holds a non-empty string is valid after the
    call. *)
Theorem UnmarshalJSON_unsupported_shape (s : null.String)
    (data : list byte) (v : json.value) :
  json.checkValid data = true ->
  json.decode data = Some v ->
  unsupported_shape v = true ->
  null.UnmarshalJSON s data
  = (null.NewString (null.String_ s) (nonempty (null.String_ s)), None).
Proof.
  intros Hv Hd Hu. unfold null.UnmarshalJSON, json.Unmarshal_interface.
  rewrite Hv, Hd. cbn [fst].
  destruct v as [ | b | lit | lit | es | ms ]; try discriminate Hu;
    cbn in Hu |- *; try reflexivity.
  apply negb_true_iff in Hu. rewrite Hu. reflexivity.
Qed.

Lemma UnmarshalJSON_unsupported_shape_witness :
  null.UnmarshalJSON (null.NewString "abc" false) (text " 42 ")
  = (null.NewString "abc" true, None) /\
  null.UnmarshalJSON (null.NewString "abc" true) (text "[true]")
  = (null.NewString "abc" true, None).
Proof.
  split.
  - exact (UnmarshalJSON_unsupported_shape (null.NewString "abc" false)
             (text " 42 ") (json.JNumber (text "42"))
             eq_refl eq_refl eq_refl).
  - exact (UnmarshalJSON_unsupported_shape (null.NewString "abc" true)
             (text "[true]") (json.JArray [json.JBool true])
             eq_refl eq_refl eq_refl).
Defined.

(** X9. When the input is a JSON string, [UnmarshalJSON] leaves
    [StringFrom] of the decoded string in the receiver, whatever the
    receiver held, and returns no error; the string literal is always
    decoded. *)
Theorem UnmarshalJSON_string_document (data lit : list byte) :
  json.checkValid data = true ->
  json.decode data = Some (json.JString lit) ->
  exists b, json.unquoteBytes lit = Some b /\
    forall s, null.UnmarshalJSON s data
              = (null.StringFrom (string_of_bytes b), None).
Proof.
  intros Hv Hd.
  destruct (Unmarshal_interface_valid data Hv) as (v & Hd' & Hok & Hi).
  rewrite Hd in Hd'. injection Hd' as <-. cbn in Hok, Hi.
  destruct (json.unquoteBytes lit) as [ b | ]; [ | discriminate Hok ].
  exists b. split; [ reflexivity | ].
  intros s. unfold null.UnmarshalJSON. rewrite Hi. reflexivity.
Qed.

Lemma UnmarshalJSON_string_document_witness :
  exists b, json.unquoteBytes (text (quoted "a\tb")) = Some b /\
    forall s, null.UnmarshalJSON s (text (" " ++ quoted "a\tb"))
              = (null.StringFrom (string_of_bytes b), None).
Proof.
  exact (UnmarshalJSON_string_document (text (" " ++ quoted "a\tb"))
           (text (quoted "a\tb")) eq_refl eq_refl).
Defined.



(** X11. [UnmarshalJSON] is idempotent: decoding the same input a second
    time into the receiver the first call left changes neither the value
    nor the error. *)
Theorem UnmarshalJSON_idempotent (s : null.String) (data : list byte) :
  null.UnmarshalJSON (fst (null.UnmarshalJSON s data)) data
  = null.UnmarshalJSON s data.
Proof.
  destruct s as [[x v]].
  unfold null.UnmarshalJSON, null.after_switch, null.set_Valid,
    null.set_String, null.String_, null.Valid.
  cbn [null.NullString sql.String sql.Valid].
  destruct (fst (json.Unmarshal_interface data)); try reflexivity.
  destruct (Unmarshal_NullString_effect data) as (f & e & Hf & H).
  pose proof (H (sql.mkNullString x v)) as [H1 H2].
  destruct (json.Unmarshal_NullString data (sql.mkNullString x v))
    as [[x1 v1] e1].
  cbn [fst snd null.NullString sql.String sql.Valid] in *.
  match goal with
  | |- context [json.Unmarshal_NullString data ?ns] =>
      pose proof (H ns) as [H3 H4];
      destruct (json.Unmarshal_NullString data ns) as [[x2 v2] e2]
  end.
  cbn in *. subst. now rewrite Hf.
Qed.

(** *** JSON strings without escapes *)

Section PlainStrings.

Lemma bytes_of_string_app (a b : string) :
  bytes_of_string (a ++ b) = (bytes_of_string a ++ bytes_of_string b)%list.
Proof.
  unfold bytes_of_string, list_byte_of_string.
  induction a as [ | c a IH ]; [ reflexivity | ].
  cbn. f_equal. exact IH.
Qed.

Lemma text_quoted (x : string) :
  text (quoted x) = json.dquote :: (bytes_of_string x ++ [json.dquote])%list.
Proof.
  unfold text, quoted, dq. now rewrite !bytes_of_string_app.
Qed.

Lemma plain_byte_tests (b : byte) :
  plain_byte b = true ->
  Byte.eqb b json.dquote = false /\ Byte.eqb b json.backslash = false /\
  (json.code b <? 32)%N = false /\ (json.code b <? 128)%N = true.
Proof.
  unfold plain_byte, json.between. intros H.
  apply andb_true_iff in H as [H Hb]. apply andb_true_iff in H as [H Hq].
  apply andb_true_iff in H as [Hlo Hhi].
  apply negb_true_iff in Hb, Hq. apply N.leb_le in Hlo, Hhi.
  repeat split; try assumption;
    [ apply N.ltb_ge | apply N.ltb_lt ]; lia.
Qed.

Lemma scan_step_plain (b : byte) :
  plain_byte b = true ->
  json.scan_step in_literal b = (in_literal, json.scanContinue).
Proof.
  intros H. destruct (plain_byte_tests b H) as (Hq & Hb & Hc & _).
  unfold json.scan_step, in_literal. cbn [json.step].
  now rewrite Hq, Hb, Hc.
Qed.

Lemma checkValid_from_plain (bs rest : list byte) :
  forallb plain_byte bs = true ->
  json.checkValid_from in_literal (bs ++ rest)
  = json.checkValid_from in_literal rest.
Proof.
  induction bs as [ | b bs IH ]; intros H; [ reflexivity | ].
  cbn in H. apply andb_true_iff in H as [Hb H].
  cbn [app json.checkValid_from]. rewrite (scan_step_plain b Hb).
  cbn. now apply IH.
Qed.

Lemma decode_run_plain (bs l : list byte) :
  forallb plain_byte bs = true ->
  fold_left json.decode_step bs
    (json.mkDecodeState in_literal (Some l) None [])
  = json.mkDecodeState in_literal (Some (rev bs ++ l)%list) None [].
Proof.
  revert l. induction bs as [ | b bs IH ]; intros l H; [ reflexivity | ].
  cbn in H. apply andb_true_iff in H as [Hb H].
  cbn [fold_left]. unfold json.decode_step at 2.
  cbn [json.scan json.lit json.cur json.stack].
  rewrite (scan_step_plain b Hb). cbn [option_map].
  rewrite (IH (b :: l) H). cbn [rev]. now rewrite <- app_assoc.
Qed.

Lemma unquote_loop_plain (bs : list byte) :
  forallb plain_byte bs = true -> json.unquote_loop 0 bs = Some bs.
Proof.
  induction bs as [ | b bs IH ]; intros H; [ reflexivity | ].
  cbn in H. apply andb_true_iff in H as [Hb H].
  destruct (plain_byte_tests b Hb) as (Hq & Hbs & Hc & Ha).
  cbn [json.unquote_loop]. unfold json.unquote_at.
  rewrite Hbs, Hq, Hc, Ha. cbn. now rewrite (IH H).
Qed.

(** A quoted run of plain bytes is valid JSON, its document is that
    literal, and the literal is unquoted to the bytes themselves. *)
Lemma plain_literal (bs : list byte) :
  forallb plain_byte bs = true ->
  let lit := json.dquote :: (bs ++ [json.dquote])%list in
  json.checkValid lit = true /\
  json.decode lit = Some (json.JString lit) /\
  json.unquoteBytes lit = Some bs.
Proof.
  intros H lit. subst lit. repeat split.
  - unfold json.checkValid. cbn [json.checkValid_from].
    change (json.scan_step json.reset json.dquote)
      with (in_literal, json.scanBeginLiteral).
    cbn. rewrite (checkValid_from_plain bs _ H). reflexivity.
  - unfold json.decode. cbn [fold_left].
    change (json.decode_step (json.mkDecodeState json.reset None None [])
              json.dquote)
      with (json.mkDecodeState in_literal (Some [json.dquote]) None []).
    rewrite fold_left_app, (decode_run_plain bs _ H).
    cbn. rewrite rev_app_distr, rev_involutive. reflexivity.
  - unfold json.unquoteBytes.
    change (Byte.eqb json.dquote json.dquote) with true.
    rewrite removelast_last.
    assert (Hlast : last (json.dquote :: bs ++ [json.dquote]) x00
                    = json.dquote)
      by (rewrite app_comm_cons; apply last_last).
    rewrite Hlast.
    change (Byte.eqb json.dquote json.dquote) with true.
    assert (Hlen : Nat.leb 2 (List.length (json.dquote :: bs ++ [json.dquote]))
                   = true)
      by (apply Nat.leb_le; cbn; rewrite length_app; cbn; lia).
    rewrite Hlen. cbn. now apply unquote_loop_plain.
Qed.

End PlainStrings.

(** X12. For every string [x] of printable ASCII without double quote or
    backslash, decoding the JSON text of [x] between double quotes is
    decoding the text [x] itself: [UnmarshalJSON] and [UnmarshalText] leave
    the same value, [StringFrom x], and no error, whatever the receiver
    held. *)
Theorem UnmarshalJSON_plain_string (s : null.String) (x : string) :
  plain_text x = true ->
  null.UnmarshalJSON s (text (quoted x)) = (null.StringFrom x, None) /\
  null.UnmarshalJSON s (text (quoted x)) = null.UnmarshalText s (text x).
Proof.
  intros H. unfold plain_text in H.
  destruct (plain_literal (bytes_of_string x) H) as (Hv & Hd & Hu).
  assert (E : null.UnmarshalJSON s (text (quoted x))
              = (null.StringFrom x, None)).
  { unfold null.UnmarshalJSON, json.Unmarshal_interface.
    rewrite text_quoted, Hv, Hd. cbn [fst json.valueInterface].
    rewrite Hu. unfold string_of_bytes, bytes_of_string.
    now rewrite string_of_list_byte_of_string. }
  split; [ exact E | ]. rewrite E.
  unfold null.UnmarshalText, null.StringFrom, null.set_Valid,
    null.set_String, null.NewString, null.String_, text, string_of_bytes,
    bytes_of_string. cbn.
  now rewrite string_of_list_byte_of_string.
Qed.

Lemma UnmarshalJSON_plain_string_witness :
  null.UnmarshalJSON (null.NewString "old" true)
    (text (quoted "hello, world {}"))
  = (null.NewString "hello, world {}" true, None) /\
  null.UnmarshalJSON zero (text (quoted "")) = (null.NewString "" false, None).
Proof.
  split.
  - exact (proj1 (UnmarshalJSON_plain_string (null.NewString "old" true)
                    "hello, world {}" eq_refl)).
  - exact (proj1 (UnmarshalJSON_plain_string zero "" eq_refl)).
Defined.

(** X13. For an object, the [Valid] member never decides the outcome: the
    receiver's [String] becomes that of the last member that stores a
    string into the field [String] (or stays, if there is none), [Valid]
    becomes true exactly when the nested decode met no type error and that
    string is not empty, and the error of the nested decode is returned. *)
Theorem UnmarshalJSON_object_document (s : null.String) (data : list byte)
    (ms : list (list byte * json.value)) :
  json.checkValid data = true ->
  json.decode data = Some (json.JObject ms) ->
  null.UnmarshalJSON s data
  = (null.NewString (last_string ms (null.String_ s))
       (null.is_nil (snd (json.object_NullString ms (null.NullString s)))
        && nonempty (last_string ms (null.String_ s))),
     snd (json.object_NullString ms (null.NullString s))).
Proof.
  intros Hv Hd.
  unfold null.UnmarshalJSON, json.Unmarshal_interface,
    json.Unmarshal_NullString.
  rewrite Hv, Hd. cbn [fst json.valueInterface].
  pose proof (object_NullString_String ms (null.NullString s)) as Hs.
  destruct (json.object_NullString ms (null.NullString s)) as [ns err].
  cbn [fst snd] in *. unfold null.after_switch, null.set_Valid, null.String_.
  cbn [null.NullString]. fold (null.String_ s) in Hs. now rewrite Hs.
Qed.

Lemma UnmarshalJSON_object_document_witness :
  null.UnmarshalJSON (null.NewString "abc" false)
    (text ("{" ++ quoted "Valid" ++ ":false}"))
  = (null.NewString "abc" true, None) /\
  null.UnmarshalJSON zero
    (text ("{" ++ quoted "String" ++ ":" ++ quoted "a" ++ ","
               ++ quoted "string" ++ ":" ++ quoted "b" ++ "}"))
  = (null.NewString "b" true, None).
Proof.
  split.
  - exact (UnmarshalJSON_object_document (null.NewString "abc" false)
             (text ("{" ++ quoted "Valid" ++ ":false}"))
             [(text (quoted "Valid"), json.JBool false)] eq_refl eq_refl).
  - exact (UnmarshalJSON_object_document zero
             (text ("{" ++ quoted "String" ++ ":" ++ quoted "a" ++ ","
                        ++ quoted "string" ++ ":" ++ quoted "b" ++ "}"))
             [(text (quoted "String"), json.JString (text (quoted "a")));
              (text (quoted "string"), json.JString (text (quoted "b")))]
             eq_refl eq_refl).
Defined.

(** X14. Decoding [null], or a number too large for a float64, resets
    [Valid] and nothing else: the receiver keeps the string it held, so it
    is null with its old payload, and no error is returned. *)
Theorem UnmarshalJSON_null_document (s : null.String) (data : list byte)
    (v : json.value) :
  json.checkValid data = true ->
  json.decode data = Some v ->
  nil_shape v = true ->
  null.UnmarshalJSON s data = (null.NewString (null.String_ s) false, None).
Proof.
  intros Hv Hd Hn. unfold null.UnmarshalJSON, json.Unmarshal_interface.
  rewrite Hv, Hd. cbn [fst].
  destruct v as [ | b | lit | lit | es | ms ]; try discriminate Hn;
    cbn in Hn |- *; [ reflexivity | ].
  rewrite Hn. reflexivity.
Qed.

Lemma UnmarshalJSON_null_document_witness :
  null.UnmarshalJSON (null.NewString "abc" true) (text " null")
  = (null.NewString "abc" false, None) /\
  null.UnmarshalJSON (null.NewString "abc" true) (text "1e999")
  = (null.NewString "abc" false, None).
Proof.
  split.
  - exact (UnmarshalJSON_null_document (null.NewString "abc" true)
             (text " null") json.JNull eq_refl eq_refl eq_refl).
  - exact (UnmarshalJSON_null_document (null.NewString "abc" true)
             (text "1e999") (json.JNumber (text "1e999"))
             eq_refl eq_refl eq_refl).
Defined.
